(** * Telemetry analysis pipeline: event normalisation, session grouping,
      turn segmentation and statistics.

    A shallow embedding of the Python sources
      - [telemetry_analyzer/telemetry_analyzer/unified_analyzer.py]
        (class [UnifiedTelemetryAnalyzer]),
      - [telemetry_analyzer/analyzer.py] (the OpenTelemetry log unwrapping
        and [format_timestamp]),
      - [claude_telemetry_analyzer/analyzer.py] ([TelemetryAnalyzer.parse_jsonl]),
    followed by the properties of the specification that these functions
    decide.

    Modelling conventions.
      - Python values read from JSON are values of [json]; Python's [None]
        is [JNull].  A [dict] read from JSON is the list of its items, whose
        keys are distinct; [dict_get] looks a key up.
      - The dictionaries the analyzer builds itself ([attributes],
        [token_usage], [total_tokens], [tools_used]) are finite maps over
        string keys; the nested [defaultdict] of the grouper, whose
        insertion order decides the order of the flows, is an association
        list.
      - The fields of the dataclasses have their annotated types.  Where
        the code stores a JSON value into a field annotated [str],
        [Optional[str]] or [List[...]], a value of another type is read as
        absent; these places are marked.
      - Python integers are [Z].  Python floats are idealised as exact
        rationals [Q]; the one place where the binary64 value itself is
        claimed (the cost of a 1000/1000 turn) is also evaluated on
        primitive floats.
      - A [datetime] is an instant: microseconds since the Unix epoch.
        All instants are on one time line (offset-aware values).
      - Exceptions are explicit: fallible code returns a [result].
      - Library calls whose code is not part of the repository (the JSON
        parsers, ISO-8601 parsing, the clock, [strftime], [int()],
        [float()] and [str()]) are the fields of a record [Builtins], taken
        as a parameter. *)

From Stdlib Require Import ZArith QArith Qround Ascii String PrimFloat Uint63.
From stdpp Require Import base option list gmap strings sorting.

Set Warnings "-inexact-float,-register-all".

(** ** Python strings *)

Module PyStr.

(** [str.lower], on the bytes of the string.  Only ASCII capitals are
    mapped; the substrings searched for below ("prompt", "response",
    "tool", "result") contain no letter that a non-ASCII character
    lowers to, so the containment tests agree with Python's. *)
Definition lower_ascii (c : ascii) : ascii :=
  let n := nat_of_ascii c in
  if (65 <=? n)%nat && (n <=? 90)%nat then ascii_of_nat (n + 32) else c.

Fixpoint lower (s : string) : string :=
  match s with
  | EmptyString => EmptyString
  | String c s' => String (lower_ascii c) (lower s')
  end.

(** [sub in s] for two strings. *)
Fixpoint contains (sub s : string) : bool :=
  String.prefix sub s ||
  match s with
  | EmptyString => false
  | String _ s' => contains sub s'
  end.

(** [s.strip() == '']: only (ASCII) whitespace. *)
Definition is_space (c : ascii) : bool :=
  let n := nat_of_ascii c in
  ((9 <=? n)%nat && (n <=? 13)%nat) || ((28 <=? n)%nat && (n <=? 32)%nat).

Fixpoint blank (s : string) : bool :=
  match s with
  | EmptyString => true
  | String c s' => is_space c && blank s'
  end.

(** [s.strip()] *)
Fixpoint lstrip (s : string) : string :=
  match s with
  | EmptyString => EmptyString
  | String c s' => if is_space c then lstrip s' else s
  end.

Fixpoint rstrip (s : string) : string :=
  match s with
  | EmptyString => EmptyString
  | String c s' => if blank s then EmptyString else String c (rstrip s')
  end.

Definition strip (s : string) : string := rstrip (lstrip s).

End PyStr.

(** ** JSON values and Python truthiness *)

Inductive json : Type :=
| JNull
| JBool (b : bool)
| JInt (n : Z)
| JFloat (q : Q)
| JStr (s : string)
| JList (l : list json)
| JDict (items : list (string * json)).

(** [bool(v)]. *)
Definition truthy (v : json) : bool :=
  match v with
  | JNull => false
  | JBool b => b
  | JInt n => negb (n =? 0)%Z
  | JFloat q => negb (Qeq_bool q 0)
  | JStr s => negb (String.eqb s "")
  | JList l => match l with [] => false | _ => true end
  | JDict items => match items with [] => false | _ => true end
  end.

(** [d.get(k)] on the items of a dictionary ([None] when absent). *)
Fixpoint dict_get (k : string) (items : list (string * json)) : option json :=
  match items with
  | [] => None
  | (k', v) :: rest => if String.eqb k k' then Some v else dict_get k rest
  end.

(** [d[k] = v] on the items of a dictionary: overwrite in place, or add
    the key at the end. *)
Fixpoint dict_set (k : string) (v : json) (items : list (string * json))
  : list (string * json) :=
  match items with
  | [] => [(k, v)]
  | (k', v') :: rest =>
      if String.eqb k k' then (k, v) :: rest else (k', v') :: dict_set k v rest
  end.

(** [m.update(d)] for a finite map [m] and the items [d] of a dictionary:
    the values of [d] replace those of [m]. *)
Definition update (m : gmap string json) (d : list (string * json))
  : gmap string json :=
  list_to_map d ∪ m.

(** ** Exceptions *)

Inductive exn : Type :=
| TypeError | KeyError | ValueError | AttributeError | OverflowError
| JSONDecodeError.

Inductive result (A : Type) : Type :=
| Ok (a : A)
| Raise (e : exn).
Arguments Ok {A} a.
Arguments Raise {A} e.

Definition bind {A B} (r : result A) (k : A → result B) : result B :=
  match r with
  | Ok a => k a
  | Raise e => Raise e
  end.

Notation "'do' x <- r ; k" := (bind r (fun x => k))
  (at level 10, x name, r at level 100, k at level 200).

Definition is_ok {A} (r : result A) : bool :=
  match r with Ok _ => true | Raise _ => false end.

(** ** The data model (the three dataclasses) *)

Definition datetime := Z.

Record TelemetryEvent := {
  timestamp : datetime;
  event_type : string;
  agent_type : string;
  span_id : option string;
  trace_id : option string;
  parent_span_id : option string;
  service_name : string;
  operation_name : option string;
  attributes : gmap string json;
  logs : list json;
  raw_data : json
}.

Record ToolCall := {
  tc_name : json;
  tc_inputs : json;
  tc_timestamp : datetime;
  tc_log_message : option string
}.

Record ToolResult := {
  tr_result : json;
  tr_success : json;
  tr_timestamp : datetime;
  tr_log_message : option string
}.

(** [user_prompt] and [assistant_response] hold whatever the attribute
    holds, so they are [json]; Python's [None] is [JNull]. *)
Record ConversationTurn := {
  turn_id : Z;
  turn_agent_type : string;
  user_prompt : json;
  assistant_response : json;
  tool_calls : list ToolCall;
  tool_results : list ToolResult;
  turn_timestamp : option datetime;
  duration_ms : option Q;
  token_usage : gmap string json;
  cost_estimate : option Q;
  errors : list string
}.

Record ConversationFlow := {
  session_id : string;
  flow_agent_type : string;
  user_name : json;
  user_email : json;
  start_time : datetime;
  end_time : option datetime;
  turns : list ConversationTurn;
  total_tokens : gmap string Z;
  total_cost : Q;
  tools_used : gmap string Z;
  error_count : Z
}.

(** ** Turn Segmenter: classification *)

(** [log.get('message', '')], for a log entry whose message is a string. *)
Definition log_message (log : json) : string :=
  match log with
  | JDict items =>
      match dict_get "message" items with
      | Some (JStr s) => s
      | _ => ""
      end
  | _ => ""
  end.

(** [any(word in log.get('message', '').lower() for log in event.logs)] *)
Definition any_log_contains (word : string) (event : TelemetryEvent) : bool :=
  existsb (λ log, PyStr.contains word (PyStr.lower (log_message log)))
          (logs event).

Definition has_attr (k : string) (event : TelemetryEvent) : bool :=
  bool_decide (is_Some (attributes event !! k)).

Definition op_is (name : string) (event : TelemetryEvent) : bool :=
  bool_decide (operation_name event = Some name).

Definition _is_user_prompt (event : TelemetryEvent) : bool :=
  has_attr "user.prompt" event ||
  has_attr "prompt" event ||
  op_is "user_prompt" event ||
  any_log_contains "prompt" event.

Definition _is_assistant_response (event : TelemetryEvent) : bool :=
  has_attr "assistant.response" event ||
  has_attr "response" event ||
  op_is "assistant_response" event ||
  any_log_contains "response" event.

Definition _is_tool_call (event : TelemetryEvent) : bool :=
  has_attr "tool.name" event ||
  op_is "tool_call" event ||
  any_log_contains "tool" event.

Definition _is_tool_result (event : TelemetryEvent) : bool :=
  has_attr "tool.result" event ||
  op_is "tool_result" event ||
  any_log_contains "result" event.

(** ** Turn Segmenter: extraction *)

(** The first log message that contains [word] (the [for ... return]
    loops of the two text extractors). *)
Definition first_log_with (word : string) (event : TelemetryEvent) : json :=
  match
    List.find (λ m, PyStr.contains word (PyStr.lower m))
              (log_message <$> logs event)
  with
  | Some m => JStr m
  | None => JNull
  end.

(** The last log message that contains [word] (the loops of the two tool
    extractors overwrite ['log_message'] at every match). *)
Definition last_log_with (word : string) (event : TelemetryEvent)
  : option string :=
  last (filter (λ m, PyStr.contains word (PyStr.lower m) = true)
               (log_message <$> logs event)).

Definition _extract_user_prompt (event : TelemetryEvent) : json :=
  match attributes event !! "user.prompt" with
  | Some v => v
  | None =>
      match attributes event !! "prompt" with
      | Some v => v
      | None => first_log_with "prompt" event
      end
  end.

Definition _extract_assistant_response (event : TelemetryEvent) : json :=
  match attributes event !! "assistant.response" with
  | Some v => v
  | None =>
      match attributes event !! "response" with
      | Some v => v
      | None => first_log_with "response" event
      end
  end.

Definition _extract_tool_call (event : TelemetryEvent) : ToolCall :=
  {| tc_name := default (JStr "unknown") (attributes event !! "tool.name");
     tc_inputs := default (JDict []) (attributes event !! "tool.inputs");
     tc_timestamp := timestamp event;
     tc_log_message := last_log_with "tool" event |}.

Definition _extract_tool_result (event : TelemetryEvent) : ToolResult :=
  {| tr_result := default (JStr "unknown") (attributes event !! "tool.result");
     tr_success := default (JBool true) (attributes event !! "tool.success");
     tr_timestamp := timestamp event;
     tr_log_message := last_log_with "result" event |}.

(** ** Turn Segmenter: the fold *)

Definition new_turn (id : Z) (agent : string) (event : TelemetryEvent)
  : ConversationTurn :=
  {| turn_id := id;
     turn_agent_type := agent;
     user_prompt := _extract_user_prompt event;
     assistant_response := JNull;
     tool_calls := [];
     tool_results := [];
     turn_timestamp := Some (timestamp event);
     duration_ms := None;
     token_usage := ∅;
     cost_estimate := None;
     errors := [] |}.

Definition set_assistant_response (v : json) (t : ConversationTurn)
  : ConversationTurn :=
  {| turn_id := turn_id t;
     turn_agent_type := turn_agent_type t;
     user_prompt := user_prompt t;
     assistant_response := v;
     tool_calls := tool_calls t;
     tool_results := tool_results t;
     turn_timestamp := turn_timestamp t;
     duration_ms := duration_ms t;
     token_usage := token_usage t;
     cost_estimate := cost_estimate t;
     errors := errors t |}.

Definition set_tool_calls (l : list ToolCall) (t : ConversationTurn)
  : ConversationTurn :=
  {| turn_id := turn_id t;
     turn_agent_type := turn_agent_type t;
     user_prompt := user_prompt t;
     assistant_response := assistant_response t;
     tool_calls := l;
     tool_results := tool_results t;
     turn_timestamp := turn_timestamp t;
     duration_ms := duration_ms t;
     token_usage := token_usage t;
     cost_estimate := cost_estimate t;
     errors := errors t |}.

Definition set_tool_results (l : list ToolResult) (t : ConversationTurn)
  : ConversationTurn :=
  {| turn_id := turn_id t;
     turn_agent_type := turn_agent_type t;
     user_prompt := user_prompt t;
     assistant_response := assistant_response t;
     tool_calls := tool_calls t;
     tool_results := l;
     turn_timestamp := turn_timestamp t;
     duration_ms := duration_ms t;
     token_usage := token_usage t;
     cost_estimate := cost_estimate t;
     errors := errors t |}.

Definition set_token_usage (m : gmap string json) (t : ConversationTurn)
  : ConversationTurn :=
  {| turn_id := turn_id t;
     turn_agent_type := turn_agent_type t;
     user_prompt := user_prompt t;
     assistant_response := assistant_response t;
     tool_calls := tool_calls t;
     tool_results := tool_results t;
     turn_timestamp := turn_timestamp t;
     duration_ms := duration_ms t;
     token_usage := m;
     cost_estimate := cost_estimate t;
     errors := errors t |}.

(** [if src in event.attributes: turn.token_usage[dst] = event.attributes[src]] *)
Definition copy_tokens (src dst : string) (event : TelemetryEvent)
    (m : gmap string json) : gmap string json :=
  match attributes event !! src with
  | Some v => <[dst := v]> m
  | None => m
  end.

Definition _update_token_usage (turn : ConversationTurn)
    (event : TelemetryEvent) : ConversationTurn :=
  set_token_usage
    (copy_tokens "tokens.total" "total" event
       (copy_tokens "tokens.output" "output" event
          (copy_tokens "tokens.input" "input" event (token_usage turn))))
    turn.

(** The loop state of [_process_conversation_turns]: the turns appended
    to the flow so far, [current_turn] and [turn_counter]. *)
Record SegState := {
  seg_turns : list ConversationTurn;
  current_turn : option ConversationTurn;
  turn_counter : Z
}.

(** The three [elif] branches, for an open turn [t]. *)
Definition fold_into (t : ConversationTurn) (event : TelemetryEvent)
  : ConversationTurn :=
  if _is_assistant_response event then
    set_assistant_response (_extract_assistant_response event) t
  else if _is_tool_call event then
    set_tool_calls (tool_calls t ++ [_extract_tool_call event]) t
  else if _is_tool_result event then
    set_tool_results (tool_results t ++ [_extract_tool_result event]) t
  else t.

(** The [if / elif / elif / elif] chain of the loop body.  The three
    [elif] conditions all carry [and current_turn], so without an open
    turn none of them fires. *)
Definition classify_step (agent : string) (st : SegState)
    (event : TelemetryEvent) : SegState :=
  if _is_user_prompt event then
    {| seg_turns := seg_turns st ++ option_list (current_turn st);
       current_turn :=
         Some (new_turn (turn_counter st + 1) agent event);
       turn_counter := turn_counter st + 1 |}
  else
    {| seg_turns := seg_turns st;
       current_turn := (λ t, fold_into t event) <$> current_turn st;
       turn_counter := turn_counter st |}.

(** The trailing [if current_turn: self._update_token_usage(...)]. *)
Definition token_step (st : SegState) (event : TelemetryEvent) : SegState :=
  {| seg_turns := seg_turns st;
     current_turn := (λ t, _update_token_usage t event) <$> current_turn st;
     turn_counter := turn_counter st |}.

Definition seg_step (agent : string) (st : SegState) (event : TelemetryEvent)
  : SegState :=
  token_step (classify_step agent st event) event.

Definition seg_init (turns0 : list ConversationTurn) : SegState :=
  {| seg_turns := turns0; current_turn := None; turn_counter := 0 |}.

Definition seg_finish (st : SegState) : list ConversationTurn :=
  seg_turns st ++ option_list (current_turn st).

Definition set_turns (l : list ConversationTurn) (f : ConversationFlow)
  : ConversationFlow :=
  {| session_id := session_id f;
     flow_agent_type := flow_agent_type f;
     user_name := user_name f;
     user_email := user_email f;
     start_time := start_time f;
     end_time := end_time f;
     turns := l;
     total_tokens := total_tokens f;
     total_cost := total_cost f;
     tools_used := tools_used f;
     error_count := error_count f |}.

Definition _process_conversation_turns (flow : ConversationFlow)
    (events : list TelemetryEvent) : ConversationFlow :=
  set_turns
    (seg_finish
       (foldl (seg_step (flow_agent_type flow)) (seg_init (turns flow)) events))
    flow.

(** ** Statistics Aggregator *)

Fixpoint foldM {A B} (f : A → B → result A) (a : A) (l : list B) : result A :=
  match l with
  | [] => Ok a
  | b :: l' => do a' <- f a b; foldM f a' l'
  end.

(** The integer a count stands for in [total += value].  [bool] is a
    subclass of [int]; [None], strings, lists and dictionaries make the
    addition raise [TypeError].  A float count leaves the declared type
    [Dict[str, int]] and is not modelled: it is rejected as well. *)
Definition as_int (v : json) : option Z :=
  match v with
  | JInt n => Some n
  | JBool b => Some (Z.b2z b)
  | _ => None
  end.

(** The values of a turn's [token_usage], read as integers. *)
Definition int_values (tu : gmap string json) : result (gmap string Z) :=
  if decide (map_Forall (λ _ v, is_Some (as_int v)) tu)
  then Ok (omap as_int tu)
  else Raise TypeError.

(** [for key, value in ...: flow.total_tokens[key] += value] on a
    [defaultdict(int)]. *)
Definition add_tokens (total ints : gmap string Z) : gmap string Z :=
  union_with (λ a b, Some (a + b)%Z) total ints.

(** [flow.tools_used[tool_name] += 1].  The map is the string-keyed part
    of the Python dictionary: a name that is not a string is counted
    under a key no string lookup reaches, a list or dictionary cannot be
    a key at all. *)
Definition count_tool (used : gmap string Z) (tc : ToolCall)
  : result (gmap string Z) :=
  match tc_name tc with
  | JStr s => Ok (<[s := (default 0 (used !! s) + 1)%Z]> used)
  | JList _ | JDict _ => Raise TypeError
  | _ => Ok used
  end.

Definition rate_input : Q := 1 # 100000.
Definition rate_output : Q := 3 # 100000.

(** [if turn.token_usage.get(key): flow.total_cost += turn.token_usage[key] * rate] *)
Definition add_cost (key : string) (rate : Q) (turn : ConversationTurn)
    (cost : Q) : result Q :=
  match token_usage turn !! key with
  | Some v =>
      if truthy v then
        match as_int v with
        | Some n => Ok (cost + inject_Z n * rate)%Q
        | None => Raise TypeError
        end
      else Ok cost
  | None => Ok cost
  end.

(** One iteration of [for turn in flow.turns]. *)
Definition stats_turn (f : ConversationFlow) (turn : ConversationTurn)
  : result ConversationFlow :=
  do ints <- int_values (token_usage turn);
  do used <- foldM count_tool (tools_used f) (tool_calls turn);
  do c1 <- add_cost "input" rate_input turn (total_cost f);
  do c2 <- add_cost "output" rate_output turn c1;
  Ok {| session_id := session_id f;
        flow_agent_type := flow_agent_type f;
        user_name := user_name f;
        user_email := user_email f;
        start_time := start_time f;
        end_time := end_time f;
        turns := turns f;
        total_tokens := add_tokens (total_tokens f) ints;
        total_cost := c2;
        tools_used := used;
        error_count := (error_count f + Z.of_nat (length (errors turn)))%Z |}.

Definition reset_statistics (f : ConversationFlow) : ConversationFlow :=
  {| session_id := session_id f;
     flow_agent_type := flow_agent_type f;
     user_name := user_name f;
     user_email := user_email f;
     start_time := start_time f;
     end_time := end_time f;
     turns := turns f;
     total_tokens := ∅;
     total_cost := 0;
     tools_used := ∅;
     error_count := 0 |}.

Definition _calculate_flow_statistics (flow : ConversationFlow)
  : result ConversationFlow :=
  foldM stats_turn (reset_statistics flow) (turns flow).

(** ** Session Grouper *)

(** [event.trace_id or event.service_name]: an empty trace id is falsy. *)
Definition session_key (event : TelemetryEvent) : string :=
  match trace_id event with
  | Some t => if String.eqb t "" then service_name event else t
  | None => service_name event
  end.

(** [d[k].append(x)] on a [defaultdict(list)], kept in insertion order. *)
Fixpoint append_to {A} (k : string) (x : A) (d : list (string * list A))
  : list (string * list A) :=
  match d with
  | [] => [(k, [x])]
  | (k', xs) :: rest =>
      if String.eqb k k' then (k', xs ++ [x]) :: rest
      else (k', xs) :: append_to k x rest
  end.

(** [agent_sessions[event.agent_type][session_key].append(event)] *)
Fixpoint add_event (event : TelemetryEvent)
    (d : list (string * list (string * list TelemetryEvent)))
  : list (string * list (string * list TelemetryEvent)) :=
  match d with
  | [] => [(agent_type event, [(session_key event, [event])])]
  | (a, sessions) :: rest =>
      if String.eqb (agent_type event) a
      then (a, append_to (session_key event) event sessions) :: rest
      else (a, sessions) :: add_event event rest
  end.

Definition agent_sessions (events : list TelemetryEvent)
  : list (string * list (string * list TelemetryEvent)) :=
  foldl (λ d e, add_event e d) [] events.

(** [session_events.sort(key=lambda x: x.timestamp)].  [list.sort] is a
    stable sort that compares keys only; the result of a stable sort is
    determined by the input, and is computed here by insertion. *)
Fixpoint insert_by_timestamp (e : TelemetryEvent) (l : list TelemetryEvent)
  : list TelemetryEvent :=
  match l with
  | [] => [e]
  | y :: l' =>
      if (timestamp e <=? timestamp y)%Z then e :: y :: l'
      else y :: insert_by_timestamp e l'
  end.

Definition sort_by_timestamp (l : list TelemetryEvent) : list TelemetryEvent :=
  foldr insert_by_timestamp [] l.

(** The sessions in the order of the two nested [for ... in ....items()]
    loops, each with its events sorted. *)
Definition sessions (events : list TelemetryEvent)
  : list (string * string * list TelemetryEvent) :=
  a ← agent_sessions events;
  s ← a.2;
  [(a.1, s.1, sort_by_timestamp s.2)].

Fixpoint _extract_user_name (events : list TelemetryEvent) : json :=
  match events with
  | [] => JStr "Unknown User"
  | e :: rest =>
      match attributes e !! "user.name" with
      | Some v => v
      | None =>
          match attributes e !! "user_name" with
          | Some v => v
          | None => _extract_user_name rest
          end
      end
  end.

Fixpoint _extract_user_email (events : list TelemetryEvent) : json :=
  match events with
  | [] => JStr "unknown@example.com"
  | e :: rest =>
      match attributes e !! "user.email" with
      | Some v => v
      | None =>
          match attributes e !! "user_email" with
          | Some v => v
          | None => _extract_user_email rest
          end
      end
  end.

(** One iteration of the inner loop of [analyze_conversation_flow], on
    the sorted events of one session. *)
Definition analyze_session (flows : list ConversationFlow)
    (s : string * string * list TelemetryEvent)
  : result (list ConversationFlow) :=
  let '(agent, sid, session_events) := s in
  match session_events with
  | [] => Ok flows
  | first :: _ =>
      let flow :=
        {| session_id := sid;
           flow_agent_type := agent;
           user_name := _extract_user_name session_events;
           user_email := _extract_user_email session_events;
           start_time := timestamp first;
           end_time := timestamp <$> last session_events;
           turns := [];
           total_tokens := ∅;
           total_cost := 0;
           tools_used := ∅;
           error_count := 0 |} in
      do flow' <- _calculate_flow_statistics
                    (_process_conversation_turns flow session_events);
      Ok (flows ++ [flow'])
  end.

Definition analyze_conversation_flow (events : list TelemetryEvent)
    (conversation_flows : list ConversationFlow)
  : result (list ConversationFlow) :=
  foldM analyze_session conversation_flows (sessions events).

(** ** Python operations on JSON values *)

(** [v.get(k)]: only a [dict] has the method. *)
Definition py_get (v : json) (k : string) : result (option json) :=
  match v with
  | JDict items => Ok (dict_get k items)
  | _ => Raise AttributeError
  end.

Fixpoint chars (s : string) : list json :=
  match s with
  | EmptyString => []
  | String c s' => JStr (String c EmptyString) :: chars s'
  end.

(** [for x in v]. *)
Definition py_iter (v : json) : result (list json) :=
  match v with
  | JList l => Ok l
  | JDict items => Ok ((λ kv, JStr kv.1) <$> items)
  | JStr s => Ok (chars s)
  | _ => Raise TypeError
  end.

Definition is_str (k : string) (v : json) : bool :=
  match v with
  | JStr s => String.eqb s k
  | _ => false
  end.

(** [k in v] for a string [k]. *)
Definition py_in (k : string) (v : json) : result bool :=
  match v with
  | JDict items => Ok (bool_decide (is_Some (dict_get k items)))
  | JList l => Ok (existsb (is_str k) l)
  | JStr s => Ok (PyStr.contains k s)
  | _ => Raise TypeError
  end.

(** [v[k]] for a string [k]. *)
Definition py_item (v : json) (k : string) : result json :=
  match v with
  | JDict items =>
      match dict_get k items with
      | Some x => Ok x
      | None => Raise KeyError
      end
  | _ => Raise TypeError
  end.

(** The number a value is under [isinstance(v, (int, float))]. *)
Definition num_value (v : json) : option Q :=
  match v with
  | JInt n => Some (inject_Z n)
  | JBool b => Some (inject_Z (Z.b2z b))
  | JFloat q => Some q
  | _ => None
  end.

(** [attributes[key] = v] for a key read from JSON, on the string-keyed
    part of the dictionary.  A list or a dictionary is not hashable. *)
Definition set_key (key v : json) (m : gmap string json)
  : result (gmap string json) :=
  match key with
  | JStr k => Ok (<[k := v]> m)
  | JList _ | JDict _ => Raise TypeError
  | _ => Ok m
  end.

(** The same assignment on the items of a dictionary that is returned as
    a JSON value. *)
Definition set_key_items (key v : json) (items : list (string * json))
  : result (list (string * json)) :=
  match key with
  | JStr k => Ok (dict_set k v items)
  | JList _ | JDict _ => Raise TypeError
  | _ => Ok items
  end.

(** Reading a field at its declared type: [Optional[str]], [str] with a
    default, [List[...]].  A value of another type is outside the
    dataclass annotation and is read as absent. *)
Definition opt_str (v : option json) : option string :=
  match v with
  | Some (JStr s) => Some s
  | _ => None
  end.

Definition as_str (d : string) (v : json) : string :=
  match v with
  | JStr s => s
  | _ => d
  end.

Definition as_list (v : option json) : list json :=
  match v with
  | Some (JList l) => l
  | _ => []
  end.

(** ** Instants *)

(** Rounding to the nearest integer, ties to even, as
    [datetime.fromtimestamp] rounds to microseconds. *)
Definition round_half_even (q : Q) : Z :=
  let f := Qfloor q in
  match (q - inject_Z f ?= 1 # 2)%Q with
  | Lt => f
  | Gt => (f + 1)%Z
  | Eq => if Z.even f then f else (f + 1)%Z
  end.

(** 0001-01-01T00:00:00 and 9999-12-31T23:59:59.999999, in microseconds. *)
Definition datetime_min : Z := (-62135596800000000)%Z.
Definition datetime_max : Z := 253402300799999999%Z.

(** [datetime.fromtimestamp(secs, ...)] *)
Definition fromtimestamp (secs : Q) : result datetime :=
  let us := round_half_even (secs * 1000000) in
  if (datetime_min <=? us)%Z && (us <=? datetime_max)%Z
  then Ok us else Raise OverflowError.

(** [s.replace('Z', '+00:00')] *)
Fixpoint replace_Z (s : string) : string :=
  match s with
  | EmptyString => EmptyString
  | String c s' =>
      if Ascii.eqb c "Z" then "+00:00" +:+ replace_Z s'
      else String c (replace_Z s')
  end.

(** ** Library calls *)

Record Builtins := {
  (** [orjson.loads] and [json.loads]; [None] is [JSONDecodeError] *)
  orjson_loads : string → option json;
  json_loads : string → option json;
  (** [datetime.fromisoformat]; [None] is [ValueError] *)
  fromisoformat : string → option datetime;
  (** [datetime.strptime(s, fmt).replace(tzinfo=timezone.utc)] *)
  strptime : string → string → option datetime;
  (** [datetime.now(timezone.utc)] *)
  now : datetime;
  (** [dt.strftime('%Y-%m-%d %H:%M:%S UTC')], for a [dt] that carries its
      own offset and for the local time of an instant *)
  strftime : datetime → string;
  strftime_local : datetime → string;
  (** [int(s)], [float(s)] and [str(v)]; [None] is [ValueError] *)
  int_of_str : string → option Z;
  float_of_str : string → option Q;
  py_str : json → string
}.

(** A stand-in for the library calls, for evaluating the functions on
    inputs that never reach them: every parser fails, the clock reads 0. *)
Definition no_builtins : Builtins :=
  {| orjson_loads := λ _, None;
     json_loads := λ _, None;
     fromisoformat := λ _, None;
     strptime := λ _ _, None;
     now := 0%Z;
     strftime := λ _, "";
     strftime_local := λ _, "";
     int_of_str := λ _, None;
     float_of_str := λ _, None;
     py_str := λ _, "" |}.

(** ** Event Normalizer ([unified_analyzer.py]) *)

(** What the loader prints. *)
Inductive warning : Type :=
| FailedToParseEvent (e : exn)
| FailedToParseLine (line_num : nat) (e : exn).

Section Normalizer.

Variable B : Builtins.

(** The numeric branch divides by [1e9] whatever the magnitude. *)
Definition _extract_timestamp (data : json) : result datetime :=
  do fallback <- py_get data "timeUnixNano";
  do first <- py_get data "timestamp";
  let timestamp_str := match first with Some v => Some v | None => fallback end in
  match timestamp_str with
  | Some (JStr s) =>
      match fromisoformat B (replace_Z s) with
      | Some d => Ok d
      | None =>
          match strptime B s "%Y-%m-%dT%H:%M:%S.%fZ" with
          | Some d => Ok d
          | None =>
              match strptime B s "%Y-%m-%dT%H:%M:%SZ" with
              | Some d => Ok d
              | None => Ok (now B)
              end
          end
      end
  | Some v =>
      match num_value v with
      | Some q => fromtimestamp (q / 1000000000)
      | None => Ok (now B)
      end
  | None => Ok (now B)
  end.

Definition _determine_event_type (data : json) (file_type : string)
  : result json :=
  if PyStr.contains "traces" file_type then Ok (JStr "trace")
  else if PyStr.contains "logs" file_type then Ok (JStr "log")
  else if PyStr.contains "metrics" file_type then Ok (JStr "metric")
  else do t <- py_get data "type"; Ok (default (JStr "unknown") t).

Definition default_service_name (agent_type : string) : string :=
  if String.eqb agent_type "claude-code" then "claude-code"
  else if String.eqb agent_type "gemini-cli" then "gemini-cli"
  else "unknown".

Definition resource_service_name (data : json) : result (option json) :=
  do resource <- py_get data "resource";
  let resource := default (JDict []) resource in
  if truthy resource then
    do attrs <- py_get resource "attributes";
    let attrs := default (JDict []) attrs in
    do found <- py_in "service.name" attrs;
    if found then do v <- py_item attrs "service.name"; Ok (Some v)
    else Ok None
  else Ok None.

Definition _extract_service_name (data : json) (agent_type : string)
  : result json :=
  do service_name <- py_get data "serviceName";
  if truthy (default JNull service_name) then Ok (default JNull service_name)
  else
    do from_resource <- resource_service_name data;
    Ok (default (JStr (default_service_name agent_type)) from_resource).

(** The value stored for one entry of an OpenTelemetry attribute list;
    [None] when no branch assigns. *)
Definition otel_value (value : json) : option json :=
  match value with
  | JDict v =>
      match dict_get "stringValue" v with
      | Some x => Some x
      | None =>
          match dict_get "intValue" v with
          | Some x => Some x
          | None => dict_get "boolValue" v
          end
      end
  | _ => Some value
  end.

Definition add_attr (attributes : gmap string json) (attr : json)
  : result (gmap string json) :=
  match attr with
  | JDict items =>
      match dict_get "key" items, dict_get "value" items with
      | Some key, Some value =>
          match otel_value value with
          | Some x => set_key key x attributes
          | None => Ok attributes
          end
      | _, _ => Ok attributes
      end
  | _ => Ok attributes
  end.

Definition direct_attributes (data : json) : result (gmap string json) :=
  do present <- py_in "attributes" data;
  if present then
    do attrs <- py_item data "attributes";
    match attrs with
    | JDict items => Ok (update ∅ items)
    | JList l => foldM add_attr ∅ l
    | _ => Ok ∅
    end
  else Ok ∅.

Definition _extract_attributes (data : json) : result (gmap string json) :=
  do attributes <- direct_attributes data;
  do resource <- py_get data "resource";
  let resource := default (JDict []) resource in
  if truthy resource then
    do res_attrs <- py_get resource "attributes";
    match default (JDict []) res_attrs with
    | JDict items => Ok (update attributes items)
    | _ => Ok attributes
    end
  else Ok attributes.

(** The [try] block of [_parse_event]. *)
Definition parse_event_body (data : json) (agent_type file_type : string)
  : result TelemetryEvent :=
  do timestamp <- _extract_timestamp data;
  do event_type <- _determine_event_type data file_type;
  do span_id <- py_get data "spanId";
  do trace_id <- py_get data "traceId";
  do parent_span_id <- py_get data "parentSpanId";
  do service_name <- _extract_service_name data agent_type;
  do name <- py_get data "name";
  do operation_name <- py_get data "operationName";
  do attributes <- _extract_attributes data;
  do logs <- py_get data "logs";
  Ok {| timestamp := timestamp;
        event_type := as_str "unknown" event_type;
        agent_type := agent_type;
        span_id := opt_str span_id;
        trace_id := opt_str trace_id;
        parent_span_id := opt_str parent_span_id;
        service_name := as_str "unknown" service_name;
        operation_name :=
          opt_str (match operation_name with Some v => Some v | None => name end);
        attributes := attributes;
        logs := as_list logs;
        raw_data := data |}.

(** [_parse_event]: any exception of the body is caught, reported and
    turned into [None]. *)
Definition _parse_event (data : json) (agent_type file_type : string)
  : option TelemetryEvent * list warning :=
  match parse_event_body data agent_type file_type with
  | Ok event => (Some event, [])
  | Raise e => (None, [FailedToParseEvent e])
  end.

(** The loader's state: [self.events] and what was printed.  The file is
    the list of its text lines; a file that cannot be opened or decoded is
    the outer [try] of [_load_file], which gives the file up. *)
Definition load_line (agent_type file_name : string)
    (st : list TelemetryEvent * list warning) (numbered : nat * string)
  : list TelemetryEvent * list warning :=
  let '(line_num, line) := numbered in
  if PyStr.blank line then st
  else
    match orjson_loads B line with
    | None => (st.1, st.2 ++ [FailedToParseLine line_num JSONDecodeError])
    | Some data =>
        let '(event, printed) := _parse_event data agent_type file_name in
        (st.1 ++ option_list event, st.2 ++ printed)
    end.

(** [enumerate(f, 1)] *)
Fixpoint enumerate_from (start : nat) (lines : list string)
  : list (nat * string) :=
  match lines with
  | [] => []
  | line :: rest => (start, line) :: enumerate_from (S start) rest
  end.

Definition _load_file (lines : list string) (agent_type file_name : string)
    (events : list TelemetryEvent) : list TelemetryEvent * list warning :=
  foldl (load_line agent_type file_name) (events, [])
        (enumerate_from 1 lines).

End Normalizer.

(** ** The OpenTelemetry log analyzer ([telemetry_analyzer/analyzer.py]) *)

Module Legacy.

Inductive message : Type :=
| ErrorParsingLine (e : exn).



Section WithBuiltins.

Variable B : Builtins.

(** [int(v)] and [float(v)] *)
Definition py_int (v : json) : result json :=
  match v with
  | JInt n => Ok (JInt n)
  | JBool b => Ok (JInt (Z.b2z b))
  | JFloat q => Ok (JInt (Z.quot (Qnum q) (Zpos (Qden q))))
  | JStr s =>
      match int_of_str B s with
      | Some n => Ok (JInt n)
      | None => Raise ValueError
      end
  | _ => Raise TypeError
  end.

Definition py_float (v : json) : result json :=
  match v with
  | JInt n => Ok (JFloat (inject_Z n))
  | JBool b => Ok (JFloat (inject_Z (Z.b2z b)))
  | JFloat q => Ok (JFloat q)
  | JStr s =>
      match float_of_str B s with
      | Some q => Ok (JFloat q)
      | None => Raise ValueError
      end
  | _ => Raise TypeError
  end.

(** The value stored for one attribute; [None] when no branch assigns. *)
Definition log_value (value : json) : result (option json) :=
  match value with
  | JDict v =>
      match dict_get "stringValue" v with
      | Some x => Ok (Some x)
      | None =>
          match dict_get "intValue" v with
          | Some x => do n <- py_int x; Ok (Some n)
          | None =>
              match dict_get "doubleValue" v with
              | Some x => do f <- py_float x; Ok (Some f)
              | None => Ok None
              end
          end
      end
  | _ => Ok (Some value)
  end.

Definition add_attr (attributes : list (string * json)) (attr : json)
  : result (list (string * json)) :=
  do key <- py_item attr "key";
  do value <- py_item attr "value";
  do stored <- log_value value;
  match stored with
  | Some x => set_key_items key x attributes
  | None => Ok attributes
  end.

(** The event name: [body.stringValue], else the [event.name]
    attribute when the former is missing or falsy. *)
Definition event_name_of (body_name : option json)
    (attributes : list (string * json)) : json :=
  let event_name := default (JStr "") body_name in
  if truthy event_name then event_name
  else default event_name (dict_get "event.name" attributes).

(** [None] is returned as [JNull]. *)
Definition parse_log_record (log_record : json) : result json :=
  do attrs <- py_get log_record "attributes";
  if negb (truthy (default JNull attrs)) then Ok JNull
  else
    do entries <- py_iter (default JNull attrs);
    do attributes <- foldM add_attr [] entries;
    do body <- py_get log_record "body";
    do body_name <- py_get (default (JDict []) body) "stringValue";
    do observed <- py_get log_record "observedTimeUnixNano";
    do time <- py_get log_record "timeUnixNano";
    Ok (JDict
          [("timestamp",
            default JNull
              (match time with Some v => Some v | None => observed end));
           ("event_name", event_name_of body_name attributes);
           ("attributes", JDict attributes)]).

Definition unwrap_scope (events : list json) (scope_log : json)
  : result (list json) :=
  do records <- py_get scope_log "logRecords";
  do records <- py_iter (default (JList []) records);
  foldM (λ evs log_record,
           do e <- parse_log_record log_record; Ok (evs ++ [e]))
        events records.

Definition unwrap_resource (events : list json) (resource_log : json)
  : result (list json) :=
  do scopes <- py_get resource_log "scopeLogs";
  do scopes <- py_iter (default (JList []) scopes);
  foldM unwrap_scope events scopes.

(** One line of the file.  Only [json.JSONDecodeError] is caught. *)
Definition parse_line (st : list json * list message) (line : string)
  : result (list json * list message) :=
  let line := PyStr.strip line in
  if String.eqb line "" then Ok st
  else
    match json_loads B line with
    | None => Ok (st.1, st.2 ++ [ErrorParsingLine JSONDecodeError])
    | Some data =>
        do wrapped <- py_in "resourceLogs" data;
        if wrapped then
          do logs <- py_item data "resourceLogs";
          do logs <- py_iter logs;
          do events <- foldM unwrap_resource st.1 logs;
          Ok (events, st.2)
        else Ok (st.1 ++ [data], st.2)
    end.

(** The returned list keeps the truthy events: [[e for e in events if e]]. *)
Definition parse_jsonl (lines : list string)
  : result (list json * list message) :=
  do st <- foldM parse_line ([], []) lines;
  Ok (List.filter truthy st.1, st.2).


End WithBuiltins.

End Legacy.

(** ** The archive analyzer ([claude_telemetry_analyzer/analyzer.py]) *)

Module Archive.

Inductive message : Type :=
| FailedToParseLineOf (e : exn).

Section WithBuiltins.

Variable B : Builtins.

Definition parse_line (st : list json * list message) (line : string)
  : list json * list message :=
  if PyStr.blank line then st
  else
    match json_loads B line with
    | Some data => (st.1 ++ [data], st.2)
    | None => (st.1, st.2 ++ [FailedToParseLineOf JSONDecodeError])
    end.

(** [file] is [None] when [os.path.exists(file_path)] is false. *)
Definition parse_jsonl (file : option (list string))
  : list json * list message :=
  match file with
  | Some lines => foldl parse_line ([], []) lines
  | None => ([], [])
  end.

End WithBuiltins.

End Archive.

(** ** The segmentation as the specification words it *)

(** The events that follow a prompt, up to the next prompt. *)
Fixpoint until_prompt (events : list TelemetryEvent) : list TelemetryEvent :=
  match events with
  | [] => []
  | e :: rest => if _is_user_prompt e then [] else e :: until_prompt rest
  end.

(** Folding one event into an open turn: its structural effect, then its
    token usage. *)
Definition fold_event (t : ConversationTurn) (event : TelemetryEvent)
  : ConversationTurn :=
  _update_token_usage (fold_into t event) event.

(** The turn a prompt opens, with the events folded into it. *)
Definition spec_turn (id : Z) (agent : string) (prompt : TelemetryEvent)
    (body : list TelemetryEvent) : ConversationTurn :=
  foldl fold_event (_update_token_usage (new_turn id agent prompt) prompt) body.

(** One turn per prompt, numbered from [next]; the events before the
    first prompt belong to no turn. *)
Fixpoint spec_turns (agent : string) (next : Z) (events : list TelemetryEvent)
  : list ConversationTurn :=
  match events with
  | [] => []
  | e :: rest =>
      if _is_user_prompt e
      then spec_turn next agent e (until_prompt rest)
             :: spec_turns agent (next + 1) rest
      else spec_turns agent next rest
  end.

(** The classification heuristics as an ordered list, evaluated top to
    bottom: the first predicate that holds names the event. *)
Inductive kind : Type :=
| KPrompt | KResponse | KToolCall | KToolResult | KOther.




(** ** Sample data *)

Module Sample.

Definition event (ts : Z) (attrs : list (string * json)) (logs : list json)
  : TelemetryEvent :=
  {| timestamp := ts;
     event_type := "log";
     agent_type := "claude-code";
     span_id := None;
     trace_id := Some "trace-1";
     parent_span_id := None;
     service_name := "claude-code";
     operation_name := None;
     attributes := list_to_map attrs;
     logs := logs;
     raw_data := JNull |}.

Definition prompt_A := event 1 [("user.prompt", JStr "A")] [].
Definition tool_call_X := event 2 [("tool.name", JStr "X")] [].
Definition tool_result_X := event 3 [("tool.result", JStr "done")] [].
Definition prompt_B := event 4 [("prompt", JStr "B")] [].


Definition tokens_100 := event 6 [("tokens.input", JInt 100)] [].
Definition tokens_50 := event 7 [("tokens.input", JInt 50)] [].
Definition tokens_1000 :=
  event 8 [("tokens.input", JInt 1000); ("tokens.output", JInt 1000)] [].

Definition flow : ConversationFlow :=
  {| session_id := "trace-1";
     flow_agent_type := "claude-code";
     user_name := JStr "Unknown User";
     user_email := JStr "unknown@example.com";
     start_time := 1%Z;
     end_time := None;
     turns := [];
     total_tokens := ∅;
     total_cost := 0;
     tools_used := ∅;
     error_count := 0%Z |}.

End Sample.

(** ** Quantities the statistics are stated with *)

(** The three token attributes and the [token_usage] key each one feeds. *)
Definition token_keys : list (string * string) :=
  [("tokens.input", "input"); ("tokens.output", "output");
   ("tokens.total", "total")].

(** The integer a turn's [token_usage] holds under [key] (0 when absent). *)
Definition turn_count (key : string) (t : ConversationTurn) : Z :=
  default 0%Z (token_usage t !! key ≫= as_int).

(** [input_tokens * 0.00001 + output_tokens * 0.00003] *)
Definition turn_cost (t : ConversationTurn) : Q :=
  inject_Z (turn_count "input" t) * rate_input
  + inject_Z (turn_count "output" t) * rate_output.

Definition Zsum (l : list Z) : Z := foldr Z.add 0%Z l.
Definition Qsum (l : list Q) : Q := foldr Qplus 0%Q l.

(** A turn on which the aggregation raises no [TypeError]: integer token
    counts, hashable tool names. *)
Definition hashable (v : json) : bool :=
  match v with
  | JList _ | JDict _ => false
  | _ => true
  end.

Definition turn_typed (t : ConversationTurn) : bool :=
  bool_decide (map_Forall (λ _ v, is_Some (as_int v)) (token_usage t))
  && forallb (λ tc, hashable (tc_name tc)) (tool_calls t).

(** The cost lines of [_calculate_flow_statistics] on binary64 floats, for
    counts below 2^53 in magnitude, which convert to a float exactly. *)
Module Binary64.

Definition of_int (n : Z) : option float :=
  if (0 <=? n)%Z && (n <? 2 ^ 53)%Z
  then Some (PrimFloat.of_uint63 (Uint63.of_Z n))
  else if (- 2 ^ 53 <? n)%Z && (n <? 0)%Z
  then Some (- PrimFloat.of_uint63 (Uint63.of_Z (- n)))%float
  else None.

Definition add_cost (key : string) (rate : float) (turn : ConversationTurn)
    (cost : float) : option float :=
  match token_usage turn !! key with
  | Some v =>
      if truthy v then
        n ← as_int v; x ← of_int n; Some (cost + x * rate)%float
      else Some cost
  | None => Some cost
  end.

Definition turn_cost (turn : ConversationTurn) (cost : float)
  : option float :=
  add_cost "input" 0.00001%float turn cost
    ≫= add_cost "output" 0.00003%float turn.

End Binary64.

(** The per-key token total of one session, as [analyze_conversation_flow]
    computes it: segmentation, then statistics. *)
Definition session_tokens (flow : ConversationFlow)
    (events : list TelemetryEvent) (key : string) : result (option Z) :=
  do stats <- _calculate_flow_statistics
                (_process_conversation_turns flow events);
  Ok (total_tokens stats !! key).

(** ** Quantities the grouping is stated with *)

(** [d.get(k)] on an insertion-ordered dictionary. *)
Fixpoint alookup {A} (k : string) (d : list (string * A)) : option A :=
  match d with
  | [] => None
  | (k', v) :: rest => if String.eqb k k' then Some v else alookup k rest
  end.

(** The events stored under [agent_sessions[a][k]] (none when absent). *)
Definition group (d : list (string * list (string * list TelemetryEvent)))
    (a k : string) : list TelemetryEvent :=
  default [] (alookup a d ≫= alookup k).

(** The events of the session named by an agent type and a session key. *)
Definition in_session (a k : string) (e : TelemetryEvent) : Prop :=
  agent_type e = a ∧ session_key e = k.

Global Instance in_session_dec a k e : Decision (in_session a k e).
Proof. unfold in_session. apply _. Defined.

Definition by_timestamp (e1 e2 : TelemetryEvent) : Prop :=
  (timestamp e1 ≤ timestamp e2)%Z.

(** Three events of one trace in reverse chronological order, the last two
    with the same timestamp, and one event of another agent that carries
    the same trace id. *)
Module SampleSessions.

Definition event (agent name : string) (ts : Z) : TelemetryEvent :=
  {| timestamp := ts;
     event_type := "log";
     agent_type := agent;
     span_id := None;
     trace_id := Some "trace-1";
     parent_span_id := None;
     service_name := agent;
     operation_name := Some name;
     attributes := ∅;
     logs := [];
     raw_data := JNull |}.

Definition late := event "claude-code" "late" 30.
Definition early_1 := event "claude-code" "early-1" 10.
Definition early_2 := event "claude-code" "early-2" 10.
Definition other_agent := event "gemini-cli" "other" 20.

Definition events : list TelemetryEvent :=
  [late; other_agent; early_1; early_2].

Definition flows : list ConversationFlow :=
  match analyze_conversation_flow events [] with
  | Ok flows => flows
  | Raise _ => []
  end.

End SampleSessions.

(** The pair that names a flow. *)
Definition flow_key (f : ConversationFlow) : string * string :=
  (flow_agent_type f, session_id f).

(** ** Quantities the ingestion is stated with *)

(** The event a line of the file normalises to, if any. *)
Definition line_event (B : Builtins) (agent_type file_name line : string)
  : option TelemetryEvent :=
  if PyStr.blank line then None
  else
    data ← orjson_loads B line;
    match parse_event_body B data agent_type file_name with
    | Ok event => Some event
    | Raise _ => None
    end.

(** A well-formed line parses as JSON and normalises to an event; a
    malformed line is a non-blank line that does not. *)
Definition well_formed (B : Builtins) (agent_type file_name line : string)
  : bool :=
  bool_decide (is_Some (line_event B agent_type file_name line)).

Definition malformed (B : Builtins) (agent_type file_name line : string)
  : bool :=
  negb (PyStr.blank line) && negb (well_formed B agent_type file_name line).



(** [body.stringValue] of a log record, for a body that is absent or a
    dictionary. *)
Definition body_string (items : list (string * json)) : result (option json) :=
  py_get (default (JDict []) (dict_get "body" items)) "stringValue".

(** The event [parse_log_record] builds. *)
Definition log_event (timestamp event_name : json)
    (attributes : list (string * json)) : json :=
  JDict [("timestamp", timestamp); ("event_name", event_name);
         ("attributes", JDict attributes)].

(** ** Sample records *)

Module SampleRecords.

(** A record whose event-level and resource-level attributes share the
    key [service.version]. *)
Definition with_both_attributes : json :=
  JDict
    [("attributes",
      JDict [("service.version", JStr "event"); ("model", JStr "m")]);
     ("resource",
      JDict [("attributes", JDict [("service.version", JStr "resource")])])].


Definition at_time (n : Z) : json := JDict [("timestamp", JInt n)].

(** A log record with one attribute, no [body] and no [event.name]. *)
Definition unnamed_log_record : json :=
  JDict
    [("timeUnixNano", JStr "1700000000000000000");
     ("attributes",
      JList [JDict [("key", JStr "session.id");
                    ("value", JDict [("stringValue", JStr "s1")])]])].

Definition envelope : json :=
  JDict
    [("resourceLogs",
      JList
        [JDict
           [("scopeLogs",
             JList [JDict [("logRecords", JList [unnamed_log_record])]])]])].

(** Library calls whose JSON parser reads the line named [envelope] as
    the value above, [{}] as the empty object, and rejects the rest. *)
Definition reader : Builtins :=
  {| orjson_loads :=
       λ s, if String.eqb s "{}" then Some (JDict []) else None;
     json_loads :=
       λ s, if String.eqb s "envelope" then Some envelope
            else if String.eqb s "{}" then Some (JDict []) else None;
     fromisoformat := λ _, None;
     strptime := λ _ _, None;
     now := 0%Z;
     strftime := λ _, "";
     strftime_local := λ _, "";
     int_of_str := λ _, None;
     float_of_str := λ _, None;
     py_str := λ _, "" |}.

End SampleRecords.

(** ** Quantities the flow properties are stated with *)

Global Instance kind_eq_dec : EqDecision kind.
Proof. solve_decision. Defined.



(** A value that cannot be added to an integer. *)
Definition non_numeric (v : json) : bool :=
  match v with
  | JNull | JStr _ | JList _ | JDict _ => true
  | _ => false
  end.

(** What [analyze_conversation_flow] makes of one session: the flow's
    header is read off the sorted events, its turns are the segmentation
    of these events. *)
Definition describes (s : string * string * list TelemetryEvent)
    (f : ConversationFlow) : Prop :=
  flow_key f = s.1
  ∧ user_name f = _extract_user_name s.2
  ∧ user_email f = _extract_user_email s.2
  ∧ Some (start_time f) = timestamp <$> head s.2
  ∧ end_time f = timestamp <$> last s.2
  ∧ turns f = spec_turns s.1.1 1 s.2
  ∧ error_count f = Zsum ((λ t, Z.of_nat (length (errors t))) <$> turns f).

(** A session given in reverse chronological order, with a user name on
    its second prompt only, and its analysis. *)
Module SampleAnalysis.

Definition named_prompt : TelemetryEvent :=
  Sample.event 4
    [("prompt", JStr "B"); ("user_name", JStr "alice");
     ("user.name", JStr "Alice"); ("user_email", JStr "alice@example.com")] [].

Definition response : TelemetryEvent :=
  Sample.event 5 [("assistant.response", JStr "first")] [].

Definition response_again : TelemetryEvent :=
  Sample.event 6 [("response", JStr "second")] [].

Definition events : list TelemetryEvent :=
  [response_again; response; named_prompt; Sample.tool_result_X;
   Sample.tool_call_X; Sample.prompt_A].

(** A token count that arrives as text. *)
Definition tokens_as_text : TelemetryEvent :=
  Sample.event 9 [("tokens.input", JStr "120")] [].

Definition flows : list ConversationFlow :=
  match analyze_conversation_flow events [] with
  | Ok flows => flows
  | Raise _ => []
  end.

Definition flow : ConversationFlow := default Sample.flow (head flows).

End SampleAnalysis.



(** ** Quantities the normaliser properties are stated with *)

(** [data.get('timestamp', data.get('timeUnixNano'))] on the items of a
    record. *)
Definition raw_timestamp (items : list (string * json)) : option json :=
  match dict_get "timestamp" items with
  | Some v => Some v
  | None => dict_get "timeUnixNano" items
  end.

Definition is_text (v : json) : bool :=
  match v with
  | JStr _ => true
  | _ => false
  end.



(** ** Loading a directory ([unified_analyzer.py]) *)

(** What a path of the data directory is: not a regular file, a file
    that cannot be opened, or a file with its text lines. *)
Inductive entry_kind : Type :=
| NotAFile
| Unreadable
| Regular (lines : list string).

Record DirEntry := {
  entry_name : string;
  entry_kind_of : entry_kind
}.

(** [detect_agent_type]: the file name and the name of its directory
    first, then the first line of the file; a file that cannot be read
    leaves the type unknown. *)
Definition detect_agent_type (name parent : string) (kind : entry_kind)
  : string :=
  let name := PyStr.lower name in
  let parent := PyStr.lower parent in
  if PyStr.contains "claude" name || PyStr.contains "claude" parent
  then "claude-code"
  else if PyStr.contains "gemini" name || PyStr.contains "gemini" parent
  then "gemini-cli"
  else
    match kind with
    | Regular lines =>
        let first_line := PyStr.lower (default "" (head lines)) in
        if PyStr.contains "claude" first_line then "claude-code"
        else if PyStr.contains "gemini" first_line then "gemini-cli"
        else "unknown"
    | _ => "unknown"
    end.

Definition patterns : list string :=
  ["*.jsonl"; "claude-telemetry.jsonl"; "traces.jsonl"; "logs.jsonl";
   "metrics.jsonl"].

Fixpoint ends_with (suffix s : string) : bool :=
  String.eqb suffix s ||
  match s with
  | EmptyString => false
  | String _ s' => ends_with suffix s'
  end.

(** [glob] for the patterns above: a leading [*] matches any prefix, every
    other character matches itself. *)
Definition glob_match (pattern name : string) : bool :=
  match pattern with
  | String "*"%char suffix => ends_with suffix name
  | _ => String.eqb pattern name
  end.

(** The body of the inner loop of [load_telemetry_data]; the state is
    [self.events] and [files_loaded].  The warnings of [_load_file] are
    printed and not kept. *)
Definition load_entry (B : Builtins) (dir_name : string)
    (st : list TelemetryEvent * nat) (entry : DirEntry)
  : list TelemetryEvent * nat :=
  match entry_kind_of entry with
  | NotAFile => st
  | Unreadable => (st.1, S st.2)
  | Regular lines =>
      let agent_type :=
        detect_agent_type (entry_name entry) dir_name (entry_kind_of entry) in
      ((_load_file B lines agent_type (entry_name entry) st.1).1, S st.2)
  end.

Definition load_pattern (B : Builtins) (dir_name : string)
    (entries : list DirEntry) (st : list TelemetryEvent * nat)
    (pattern : string) : list TelemetryEvent * nat :=
  foldl (load_entry B dir_name) st
        (List.filter (λ entry, glob_match pattern (entry_name entry)) entries).

Definition load_telemetry_data (B : Builtins) (dir_name : string)
    (entries : list DirEntry) (events : list TelemetryEvent)
  : list TelemetryEvent * nat :=
  foldl (load_pattern B dir_name entries) (events, 0%nat) patterns.

(** The events one regular file contributes each time it is loaded, and
    the number of patterns that match a name. *)
Definition entry_events (B : Builtins) (dir_name : string) (entry : DirEntry)
  : list TelemetryEvent :=
  match entry_kind_of entry with
  | Regular lines =>
      omap (line_event B
              (detect_agent_type (entry_name entry) dir_name
                 (entry_kind_of entry))
              (entry_name entry)) lines
  | _ => []
  end.

Definition is_file (entry : DirEntry) : bool :=
  match entry_kind_of entry with
  | NotAFile => false
  | _ => true
  end.

Definition multiplicity (name : string) : nat :=
  length (List.filter (λ pattern, glob_match pattern name) patterns).

Definition sum_nat (l : list nat) : nat := foldr Nat.add 0%nat l.


(** ** Quantities the properties of the other parsers are stated with *)

(** A JSON value that is neither a container nor a string. *)
Definition scalar (data : json) : bool :=
  match data with
  | JNull | JBool _ | JInt _ | JFloat _ => true
  | _ => false
  end.

(** [record] is one of the log records of the OpenTelemetry export
    [data]. *)
Definition holds_record (data record : json) : Prop :=
  ∃ items logs resource_log scopes scope_log records,
    data = JDict items
    ∧ dict_get "resourceLogs" items = Some (JList logs)
    ∧ JDict resource_log ∈ logs
    ∧ dict_get "scopeLogs" resource_log = Some (JList scopes)
    ∧ JDict scope_log ∈ scopes
    ∧ dict_get "logRecords" scope_log = Some (JList records)
    ∧ record ∈ records.




(** ** The script [analyze-telemetry.py] *)

(** Its [parse_jsonl] has no [try] around [json.loads]. *)
Module Script.

Section WithBuiltins.

Variable B : Builtins.

Definition parse_line (events : list json) (line : string)
  : result (list json) :=
  if PyStr.blank line then Ok events
  else
    match json_loads B line with
    | Some data => Ok (events ++ [data])
    | None => Raise JSONDecodeError
    end.

Definition parse_jsonl (file : option (list string)) : result (list json) :=
  match file with
  | Some lines => foldM parse_line [] lines
  | None => Ok []
  end.

End WithBuiltins.

End Script.

(** Lines of a file read by [analyzer.py]: a number, an export whose only
    log record has an attribute entry without [key], an event, and an
    empty object. *)
Module SampleLegacy.

Definition keyless_entry : json := JDict [("value", JStr "x")].

Definition keyless_record : json :=
  JDict [("attributes", JList [keyless_entry])].

Definition export : json :=
  JDict
    [("resourceLogs",
      JList
        [JDict
           [("scopeLogs",
             JList [JDict [("logRecords", JList [keyless_record])]])]])].

Definition event : json := JDict [("event_name", JStr "user_prompt")].

Definition reader : Builtins :=
  {| orjson_loads := λ _, None;
     json_loads :=
       λ s, if String.eqb s "7" then Some (JInt 7)
            else if String.eqb s "export" then Some export
            else if String.eqb s "event" then Some event
            else if String.eqb s "{}" then Some (JDict [])
            else None;
     fromisoformat := λ _, None;
     strptime := λ _ _, None;
     now := 0%Z;
     strftime := λ _, "";
     strftime_local := λ _, "";
     int_of_str := λ _, None;
     float_of_str := λ _, None;
     py_str := λ _, "" |}.

End SampleLegacy.

(** ** The summary of [generate_report] ([unified_analyzer.py]) *)







(** ** The statistics of the archive analyzer *)

(** [calculate_statistics] of [claude_telemetry_analyzer/analyzer.py].
    Numbers are read as exact rationals; a duration is the difference of
    two instants. *)
Module ArchiveStatistics.

Inductive message : Type :=
| FailedToParseDuration.

Record Stats := {
  total_sessions : nat;
  total_events : nat;
  total_tokens : gmap string Q;
  total_cost : Q;
  mcp_interactions : Z;
  queries : Z;
  code_lines : gmap string Q;
  session_durations : list Q
}.

Definition initial (sessions events interactions : nat) : Stats :=
  {| total_sessions := sessions;
     total_events := events + interactions;
     total_tokens :=
       <["input" := 0%Q]> (<["output" := 0%Q]> (<["cache" := 0%Q]> ∅));
     total_cost := 0;
     mcp_interactions := 0;
     queries := 0;
     code_lines :=
       <["added" := 0%Q]> (<["removed" := 0%Q]> (<["modified" := 0%Q]> ∅));
     session_durations := [] |}.

(** [if type in totals: totals[type] += value] *)
Definition add_typed (totals : gmap string Q) (type value : json)
  : result (gmap string Q) :=
  match type with
  | JStr k =>
      match totals !! k with
      | Some old =>
          match num_value value with
          | Some q => Ok (<[k := (old + q)%Q]> totals)
          | None => Raise TypeError
          end
      | None => Ok totals
      end
  | JList _ | JDict _ => Raise TypeError
  | _ => Ok totals
  end.

(** [event.get('attributes', {}).get('type', 'unknown')] *)
Definition type_of (event : json) : result json :=
  do attrs <- py_get event "attributes";
  do type <- py_get (default (JDict []) attrs) "type";
  Ok (default (JStr "unknown") type).

(** [event.get('value', 0)] *)
Definition value_of (event : json) : result json :=
  do value <- py_get event "value";
  Ok (default (JInt 0) value).

(** The body of [for event in self.telemetry_events]. *)
Definition count_event (stats : Stats) (event : json) : result Stats :=
  do metric <- py_get event "metric";
  let metric := default JNull metric in
  if is_str "claude_code.token.usage" metric then
    do type <- type_of event;
    do value <- value_of event;
    do totals <- add_typed (total_tokens stats) type value;
    Ok {| total_sessions := total_sessions stats;
          total_events := total_events stats;
          total_tokens := totals;
          total_cost := total_cost stats;
          mcp_interactions := mcp_interactions stats;
          queries := queries stats;
          code_lines := code_lines stats;
          session_durations := session_durations stats |}
  else if is_str "claude_code.cost.usage" metric then
    do value <- value_of event;
    match num_value value with
    | Some q =>
        Ok {| total_sessions := total_sessions stats;
              total_events := total_events stats;
              total_tokens := total_tokens stats;
              total_cost := total_cost stats + q;
              mcp_interactions := mcp_interactions stats;
              queries := queries stats;
              code_lines := code_lines stats;
              session_durations := session_durations stats |}
    | None => Raise TypeError
    end
  else if is_str "mcp.interaction" metric then
    Ok {| total_sessions := total_sessions stats;
          total_events := total_events stats;
          total_tokens := total_tokens stats;
          total_cost := total_cost stats;
          mcp_interactions := mcp_interactions stats + 1;
          queries := queries stats;
          code_lines := code_lines stats;
          session_durations := session_durations stats |}
  else if is_str "claude_code.lines_of_code.count" metric then
    do type <- type_of event;
    do value <- value_of event;
    do totals <- add_typed (code_lines stats) type value;
    Ok {| total_sessions := total_sessions stats;
          total_events := total_events stats;
          total_tokens := total_tokens stats;
          total_cost := total_cost stats;
          mcp_interactions := mcp_interactions stats;
          queries := queries stats;
          code_lines := totals;
          session_durations := session_durations stats |}
  else Ok stats.

Section WithBuiltins.

Variable B : Builtins.

(** [str(v)] *)
Definition text_of (v : json) : string :=
  match v with
  | JStr s => s
  | _ => py_str B v
  end.

(** The body of [for interaction in self.interactions]. *)
Definition count_interaction (stats : Stats) (interaction : json)
  : result Stats :=
  do data <- py_get interaction "data";
  if PyStr.contains "Processing query:" (text_of (default (JStr "") data))
  then
    Ok {| total_sessions := total_sessions stats;
          total_events := total_events stats;
          total_tokens := total_tokens stats;
          total_cost := total_cost stats;
          mcp_interactions := mcp_interactions stats;
          queries := queries stats + 1;
          code_lines := code_lines stats;
          session_durations := session_durations stats |}
  else Ok stats.

(** The [try] block of the last loop: [None] when it raises. *)
Definition duration (start_time end_time : json) : option Q :=
  match start_time, end_time with
  | JStr s, JStr e =>
      match fromisoformat B (replace_Z s), fromisoformat B (replace_Z e) with
      | Some start, Some finish => Some (inject_Z (finish - start) / 1000000)%Q
      | _, _ => None
      end
  | _, _ => None
  end.

(** The body of [for session_id, session_info in self.sessions.items()]. *)
Definition add_session (st : Stats * list message) (session : string * json)
  : result (Stats * list message) :=
  do start_time <- py_get session.2 "start_time";
  do end_time <- py_get session.2 "end_time";
  let start_time := default JNull start_time in
  let end_time := default JNull end_time in
  if truthy start_time && truthy end_time then
    match duration start_time end_time with
    | Some d =>
        Ok ({| total_sessions := total_sessions st.1;
               total_events := total_events st.1;
               total_tokens := total_tokens st.1;
               total_cost := total_cost st.1;
               mcp_interactions := mcp_interactions st.1;
               queries := queries st.1;
               code_lines := code_lines st.1;
               session_durations := session_durations st.1 ++ [d] |}, st.2)
    | None => Ok (st.1, st.2 ++ [FailedToParseDuration])
    end
  else Ok st.

Definition calculate_statistics (sessions : list (string * json))
    (telemetry_events interactions : list json)
  : result (Stats * list message) :=
  do stats <- foldM count_event
                (initial (length sessions) (length telemetry_events)
                   (length interactions))
                telemetry_events;
  do stats <- foldM count_interaction stats interactions;
  foldM add_session (stats, []) sessions.

End WithBuiltins.

End ArchiveStatistics.









Definition is_dict (v : json) : bool :=
  match v with
  | JDict _ => true
  | _ => false
  end.

(** ** The event analysis of [telemetry_analyzer/analyzer.py] *)

(** [analyze_events] up to its statistics: the sort, the grouping by event
    name, and the session and user information. *)
Module LegacyAnalysis.

Section WithParser.

(** [dateutil.parser.parse(ts).timestamp()]; [None] when it raises. *)
Variable parse_timestamp : string → option Q.

Definition get_timestamp_for_sorting (event : json) : result Q :=
  do ts <- py_get event "timestamp";
  match default (JInt 0) ts with
  | JStr s => Ok (default 0%Q (parse_timestamp s))
  | ts => Ok (default 0%Q (num_value ts))
  end.

(** [events.sort(key=get_timestamp_for_sorting)]: the keys are computed
    first, then the list is sorted on them by a stable sort, computed here
    by insertion. *)
Fixpoint insert_by_key (x : Q * json) (l : list (Q * json))
  : list (Q * json) :=
  match l with
  | [] => [x]
  | y :: l' =>
      if Qle_bool x.1 y.1 then x :: y :: l' else y :: insert_by_key x l'
  end.

Definition with_key (keyed : list (Q * json)) (event : json)
  : result (list (Q * json)) :=
  do key <- get_timestamp_for_sorting event;
  Ok (keyed ++ [(key, event)]).

Definition sort_events (events : list json) : result (list json) :=
  do keyed <- foldM with_key [] events;
  Ok (foldr insert_by_key [] keyed).*2.

(** [event_types[event_name].append(event)]: the name has to be
    hashable. *)
Definition group_event (_ : unit) (event : json) : result unit :=
  do event_name <- py_get event "event_name";
  if hashable (default (JStr "unknown") event_name) then Ok tt
  else Raise TypeError.

(** [if src in attrs: info[dst] = attrs[src]] *)
Definition copy_attr (src dst : string) (attrs : json)
    (info : list (string * json)) : result (list (string * json)) :=
  do present <- py_in src attrs;
  if present then do v <- py_item attrs src; Ok (dict_set dst v info)
  else Ok info.

Definition user_keys : list (string * string) :=
  [("user.email", "email"); ("user.id", "id");
   ("user.account_uuid", "account_uuid")].

Definition session_keys : list (string * string) :=
  [("session.id", "session_id"); ("organization.id", "organization_id");
   ("terminal.type", "terminal_type")].

(** The body of the second loop; the state is [session_info] and
    [user_info]. *)
Definition collect
    (st : list (string * json) * list (string * json)) (event : json)
  : result (list (string * json) * list (string * json)) :=
  do attrs <- py_get event "attributes";
  let attrs := default (JDict []) attrs in
  do user_info <- foldM (λ info p, copy_attr p.1 p.2 attrs info) st.2
                    user_keys;
  do session_info <- foldM (λ info p, copy_attr p.1 p.2 attrs info) st.1
                       session_keys;
  Ok (session_info, user_info).

(** [None] stands for the empty dictionary returned for no events;
    otherwise the sorted events, [session_info] and [user_info]. *)
Definition collect_info (events : list json)
  : result (option (list json * list (string * json) * list (string * json))) :=
  match events with
  | [] => Ok None
  | _ =>
      do sorted <- sort_events events;
      do _ <- foldM group_event tt sorted;
      do info <- foldM collect ([], []) sorted;
      Ok (Some (sorted, info.1, info.2))
  end.

(** The key an event is sorted on, when it has one. *)
Definition sort_key (event : json) : Q :=
  match get_timestamp_for_sorting event with
  | Ok key => key
  | Raise _ => 0%Q
  end.

End WithParser.

End LegacyAnalysis.

(** An event of [analyzer.py] as [parse_jsonl] builds it: a dictionary
    with a hashable name whose [attributes], when present, is a
    dictionary. *)
Definition legacy_event (event : json) : bool :=
  match event with
  | JDict items =>
      hashable (default (JStr "unknown") (dict_get "event_name" items))
      && is_dict (default (JDict []) (dict_get "attributes" items))
  | _ => false
  end.

(** The attribute [src] of such an event. *)
Definition legacy_attr (src : string) (event : json) : option json :=
  match event with
  | JDict items =>
      match default (JDict []) (dict_get "attributes" items) with
      | JDict attrs => dict_get src attrs
      | _ => None
      end
  | _ => None
  end.

(** * Properties *)

Local Open Scope Z_scope.

(** ** Turn Segmenter *)

Section Segmenter.

Variable agent : string.

Lemma seg_open events : ∀ turns0 t c,
  seg_finish (foldl (seg_step agent)
                {| seg_turns := turns0; current_turn := Some t;
                   turn_counter := c |} events)
  = turns0 ++ foldl fold_event t (until_prompt events)
             :: spec_turns agent (c + 1) events.
Proof.
  induction events as [|e rest IH]; intros turns0 t c; simpl.
  - reflexivity.
  - unfold seg_step at 2, classify_step, token_step; simpl.
    destruct (_is_user_prompt e); simpl.
    + rewrite IH. unfold spec_turn. by rewrite <- app_assoc.
    + by rewrite IH.
Qed.

Lemma seg_closed events : ∀ turns0 c,
  seg_finish (foldl (seg_step agent)
                {| seg_turns := turns0; current_turn := None;
                   turn_counter := c |} events)
  = turns0 ++ spec_turns agent (c + 1) events.
Proof.
  induction events as [|e rest IH]; intros turns0 c; simpl.
  - unfold seg_finish; simpl. reflexivity.
  - unfold seg_step at 2, classify_step, token_step; simpl.
    destruct (_is_user_prompt e); simpl.
    + rewrite seg_open. unfold spec_turn. by rewrite app_nil_r.
    + apply IH.
Qed.

End Segmenter.

Lemma process_turns flow events :
  turns (_process_conversation_turns flow events)
  = turns flow ++ spec_turns (flow_agent_type flow) 1 events.
Proof.
  unfold _process_conversation_turns, seg_init; simpl.
  by rewrite seg_closed.
Qed.












(** ** Token usage *)

Lemma token_usage_fold_into t event :
  token_usage (fold_into t event) = token_usage t.
Proof.
  unfold fold_into.
  destruct (_is_assistant_response event); [done|].
  destruct (_is_tool_call event); [done|].
  by destruct (_is_tool_result event).
Qed.

Lemma token_usage_update t event src dst :
  (src, dst) ∈ token_keys →
  token_usage (_update_token_usage t event) !! dst
  = match attributes event !! src with
    | Some v => Some v
    | None => token_usage t !! dst
    end.
Proof.
  unfold token_keys. rewrite !elem_of_cons, elem_of_nil.
  unfold _update_token_usage, copy_tokens; cbn.
  intros [[= -> ->]|[[= -> ->]|[[= -> ->]|[]]]];
    destruct (attributes event !! "tokens.input"),
             (attributes event !! "tokens.output"),
             (attributes event !! "tokens.total");
    by simplify_map_eq.
Qed.

Lemma token_usage_fold_event t event src dst :
  (src, dst) ∈ token_keys →
  token_usage (fold_event t event) !! dst
  = match attributes event !! src with
    | Some v => Some v
    | None => token_usage t !! dst
    end.
Proof.
  intros H. unfold fold_event.
  by rewrite (token_usage_update _ _ _ _ H), token_usage_fold_into.
Qed.

Lemma token_usage_foldl body : ∀ t src dst,
  (src, dst) ∈ token_keys →
  token_usage (foldl fold_event t body) !! dst
  = match last (omap (λ e, attributes e !! src) body) with
    | Some v => Some v
    | None => token_usage t !! dst
    end.
Proof.
  induction body as [|e body IH] using rev_ind; intros t src dst H.
  - done.
  - rewrite foldl_app; cbn [foldl].
    rewrite (token_usage_fold_event _ _ _ _ H), omap_app; cbn.
    destruct (attributes e !! src) as [v|]; cbn.
    + by rewrite last_snoc.
    + rewrite app_nil_r. by apply IH.
Qed.

(** ** Flow statistics *)

Lemma Zsum_perm l1 l2 : l1 ≡ₚ l2 → Zsum l1 = Zsum l2.
Proof.
  induction 1; cbn; unfold Zsum in *; cbn in *; lia.
Qed.

Lemma count_tools_ok tcs : ∀ used,
  forallb (λ tc, hashable (tc_name tc)) tcs = true →
  ∃ used', foldM count_tool used tcs = Ok used'.
Proof.
  induction tcs as [|tc tcs IH]; intros used; cbn.
  - by eexists.
  - intros [Htc Htcs]%andb_prop. unfold count_tool at 1.
    destruct (tc_name tc); try done; cbn; by apply IH.
Qed.

Lemma add_cost_ok key rate turn cost :
  map_Forall (λ _ v, is_Some (as_int v)) (token_usage turn) →
  ∃ c, add_cost key rate turn cost = Ok c
       ∧ (c == cost + inject_Z (turn_count key turn) * rate)%Q.
Proof.
  intros Hint. unfold add_cost, turn_count.
  destruct (token_usage turn !! key) as [v|] eqn:Hv; cbn.
  - destruct (Hint _ _ Hv) as [n Hn]. rewrite Hn; cbn.
    destruct (truthy v) eqn:Ht.
    + eexists. split; [done|]. reflexivity.
    + eexists. split; [done|].
      assert (n = 0) as ->.
      { destruct v; try done; cbn in *.
        - destruct b; [done|]. by injection Hn as <-.
        - injection Hn as <-. apply negb_false_iff in Ht. lia. }
      ring.
  - eexists. split; [done|]. ring.
Qed.

Lemma stats_turn_ok f t :
  turn_typed t = true →
  ∃ f', stats_turn f t = Ok f'
        ∧ turns f' = turns f
        ∧ (∀ key, default 0 (total_tokens f' !! key)
                  = default 0 (total_tokens f !! key) + turn_count key t)
        ∧ (total_cost f' == total_cost f + turn_cost t)%Q.
Proof.
  unfold turn_typed. intros [Hint Htools]%andb_prop.
  apply bool_decide_eq_true in Hint.
  unfold stats_turn, int_values. rewrite decide_True by done. cbn.
  destruct (count_tools_ok _ (tools_used f) Htools) as [used ->]. cbn.
  destruct (add_cost_ok "input" rate_input t (total_cost f) Hint)
    as (c1 & -> & Hc1). cbn.
  destruct (add_cost_ok "output" rate_output t c1 Hint) as (c2 & -> & Hc2).
  cbn. eexists. split; [done|]. cbn. split; [done|]. split.
  - intros key. unfold add_tokens, turn_count.
    rewrite lookup_union_with, lookup_omap.
    destruct (total_tokens f !! key), (token_usage t !! key ≫= as_int);
      cbn; lia.
  - rewrite Hc2, Hc1. unfold turn_cost. ring.
Qed.

Lemma stats_fold_ok ts : ∀ f,
  forallb turn_typed ts = true →
  ∃ f', foldM stats_turn f ts = Ok f'
        ∧ turns f' = turns f
        ∧ (∀ key, default 0 (total_tokens f' !! key)
                  = default 0 (total_tokens f !! key)
                    + Zsum (turn_count key <$> ts))
        ∧ (total_cost f' == total_cost f + Qsum (turn_cost <$> ts))%Q.
Proof.
  induction ts as [|t ts IH]; intros f; cbn.
  - intros _. eexists. split; [done|]. split; [done|].
    split; [intros; lia | ring].
  - intros [Ht Hts]%andb_prop.
    destruct (stats_turn_ok f t Ht) as (f1 & -> & Hturns1 & Htok1 & Hcost1).
    cbn. destruct (IH f1 Hts) as (f' & -> & Hturns & Htok & Hcost).
    eexists. split; [done|]. split; [congruence|]. split.
    + intros key. rewrite Htok, Htok1. unfold Zsum. lia.
    + rewrite Hcost, Hcost1. unfold Qsum. ring.
Qed.

Lemma flow_statistics_ok flow :
  forallb turn_typed (turns flow) = true →
  ∃ stats, _calculate_flow_statistics flow = Ok stats
           ∧ turns stats = turns flow
           ∧ (∀ key, default 0 (total_tokens stats !! key)
                     = Zsum (turn_count key <$> turns flow))
           ∧ (total_cost stats == Qsum (turn_cost <$> turns flow))%Q.
Proof.
  intros H. unfold _calculate_flow_statistics.
  destruct (stats_fold_ok (turns flow) (reset_statistics flow) H)
    as (stats & Hs & Hturns & Htok & Hcost).
  exists stats. split; [done|]. split; [done|]. split.
  - intros key. rewrite Htok. cbn. by rewrite lookup_empty.
  - rewrite Hcost. cbn. ring.
Qed.

Lemma forallb_perm {A} (p : A → bool) l1 l2 :
  l1 ≡ₚ l2 → forallb p l1 = forallb p l2.
Proof.
  induction 1; cbn; try congruence.
  by destruct (p x), (p y).
Qed.

(** C2, as the code has it.  A turn's [token_usage] is assigned, not
    added to: under each key it holds the value of the last event of the
    turn (the prompt included) that carries the matching token attribute.
    The flow's [total_tokens] is, per key, the sum of the values its turns
    hold, and is the same for every order of the turns. *)
Theorem token_usage_last_write_wins
    (id : Z) (agent : string) (prompt : TelemetryEvent)
    (body : list TelemetryEvent) (flow flow2 : ConversationFlow)
    (src dst : string) :
  (src, dst) ∈ token_keys →
  forallb turn_typed (turns flow) = true →
  turns flow2 ≡ₚ turns flow →
  token_usage (spec_turn id agent prompt body) !! dst
    = last (omap (λ e, attributes e !! src) (prompt :: body))
  ∧ ∃ stats stats2,
      _calculate_flow_statistics flow = Ok stats
      ∧ _calculate_flow_statistics flow2 = Ok stats2
      ∧ ∀ key,
          default 0 (total_tokens stats !! key)
            = Zsum (turn_count key <$> turns flow)
          ∧ default 0 (total_tokens stats2 !! key)
            = default 0 (total_tokens stats !! key).
Proof.
  intros Hkey Htyped Hperm. split.
  - unfold spec_turn.
    rewrite (token_usage_foldl _ _ _ _ Hkey),
            (token_usage_update _ _ _ _ Hkey).
    cbn [omap list_omap new_turn token_usage]. rewrite lookup_empty.
    destruct (attributes prompt !! src) as [v|].
    + rewrite last_cons.
      by destruct (last (omap (λ e, attributes e !! src) body)).
    + by destruct (last (omap (λ e, attributes e !! src) body)).
  - assert (Htyped2 : forallb turn_typed (turns flow2) = true).
    { by rewrite (forallb_perm _ _ _ Hperm). }
    destruct (flow_statistics_ok flow Htyped) as (stats & Hs & _ & Htok & _).
    destruct (flow_statistics_ok flow2 Htyped2)
      as (stats2 & Hs2 & _ & Htok2 & _).
    exists stats, stats2. split; [done|]. split; [done|].
    intros key. split; [apply Htok|].
    rewrite Htok, Htok2. apply Zsum_perm. by apply fmap_Permutation.
Qed.

Lemma token_usage_last_write_wins_witness :
  token_usage
    (spec_turn 1 "claude-code" Sample.prompt_A
       [Sample.tokens_100; Sample.tokens_50]) !! "input"
  = Some (JInt 50).
Proof.
  destruct (token_usage_last_write_wins 1 "claude-code" Sample.prompt_A
              [Sample.tokens_100; Sample.tokens_50]
              (_process_conversation_turns Sample.flow
                 [Sample.prompt_A; Sample.tokens_100; Sample.prompt_B;
                  Sample.tokens_50])
              (set_turns
                 (reverse
                    (turns
                       (_process_conversation_turns Sample.flow
                          [Sample.prompt_A; Sample.tokens_100;
                           Sample.prompt_B; Sample.tokens_50])))
                 Sample.flow)
              "tokens.input" "input") as [Hlast _].
  - apply list_elem_of_here.
  - vm_compute. reflexivity.
  - apply reverse_Permutation.
  - rewrite Hlast. reflexivity.
Defined.

(** C2 fails on the code: two arrival orders of the same two
    token-bearing events inside one turn give two different totals, 50 and
    100, neither of them the sum 150. *)
Lemma token_usage_not_additive :
  session_tokens Sample.flow
    [Sample.prompt_A; Sample.tokens_100; Sample.tokens_50] "input"
    = Ok (Some 50)
  ∧ session_tokens Sample.flow
      [Sample.prompt_A; Sample.tokens_50; Sample.tokens_100] "input"
    = Ok (Some 100).
Proof. split; vm_compute; reflexivity. Qed.



(** ** Session Grouper *)

Section Assoc.

Context {A : Type}.
Implicit Types d : list (string * A).

Lemma alookup_elem_of d k v : alookup k d = Some v → (k, v) ∈ d.
Proof.
  induction d as [|[k' v'] d IH]; cbn; [done|].
  destruct (String.eqb_spec k k') as [->|Hne].
  - intros [= ->]. apply list_elem_of_here.
  - intros H. apply list_elem_of_further. by apply IH.
Qed.

Lemma elem_of_alookup d k v :
  NoDup d.*1 → (k, v) ∈ d → alookup k d = Some v.
Proof.
  induction d as [|[k' v'] d IH]; cbn; [by intros _ ?%elem_of_nil|].
  intros [Hk' Hd]%NoDup_cons [[= -> ->]|Hin]%elem_of_cons.
  - by rewrite String.eqb_refl.
  - destruct (String.eqb_spec k k') as [->|Hne]; [|by apply IH].
    destruct Hk'. apply list_elem_of_fmap. by exists (k', v).
Qed.

End Assoc.

Lemma alookup_append_to {A} (k k' : string) (x : A) d :
  alookup k' (append_to k x d)
  = if String.eqb k' k then Some (default [] (alookup k d) ++ [x])
    else alookup k' d.
Proof.
  induction d as [|[k0 xs] d IH]; cbn.
  - by destruct (String.eqb k' k).
  - destruct (String.eqb_spec k k0) as [->|Hne]; cbn.
    + by destruct (String.eqb k' k0).
    + destruct (String.eqb_spec k' k0) as [->|Hne'].
      * destruct (String.eqb_spec k0 k) as [->|]; [done|done].
      * apply IH.
Qed.

Lemma keys_append_to {A} (k : string) (x : A) d :
  NoDup d.*1 → NoDup (append_to k x d).*1.
Proof.
  assert (H : ((append_to k x d).*1 = d.*1)
              ∨ ((k ∉ d.*1) ∧ (append_to k x d).*1 = d.*1 ++ [k])).
  { induction d as [|[k0 xs] d IH]; cbn.
    - right. split; [apply not_elem_of_nil | done].
    - destruct (String.eqb_spec k k0) as [->|Hne]; cbn; [by left|].
      destruct IH as [->|[Hk ->]]; [by left|].
      right. split; [|done]. rewrite not_elem_of_cons. done. }
  intros Hd. destruct H as [->|[Hk ->]]; [done|].
  apply NoDup_app. split; [done|]. split.
  - intros y Hy ->%list_elem_of_singleton. done.
  - apply NoDup_singleton.
Qed.

Lemma alookup_add_event e d a :
  alookup a (add_event e d)
  = if String.eqb a (agent_type e)
    then Some (append_to (session_key e) e (default [] (alookup a d)))
    else alookup a d.
Proof.
  induction d as [|[a0 ss] d IH]; cbn.
  - by destruct (String.eqb a (agent_type e)).
  - destruct (String.eqb_spec (agent_type e) a0) as [<-|Hne]; cbn.
    + by destruct (String.eqb a (agent_type e)).
    + destruct (String.eqb_spec a a0) as [->|Hne'].
      * destruct (String.eqb_spec a0 (agent_type e)) as [->|]; done.
      * apply IH.
Qed.

Lemma keys_add_event e d : NoDup d.*1 → NoDup (add_event e d).*1.
Proof.
  assert (H : ((add_event e d).*1 = d.*1)
              ∨ ((agent_type e ∉ d.*1)
                 ∧ (add_event e d).*1 = d.*1 ++ [agent_type e])).
  { induction d as [|[a0 ss] d IH]; cbn.
    - right. split; [apply not_elem_of_nil | done].
    - destruct (String.eqb_spec (agent_type e) a0) as [->|Hne]; cbn;
        [by left|].
      destruct IH as [->|[Hk ->]]; [by left|].
      right. split; [|done]. rewrite not_elem_of_cons. done. }
  intros Hd. destruct H as [->|[Hk ->]]; [done|].
  apply NoDup_app. split; [done|]. split.
  - intros y Hy ->%list_elem_of_singleton. done.
  - apply NoDup_singleton.
Qed.

Lemma inner_keys_add_event e d :
  Forall (λ p, NoDup p.2.*1) d → Forall (λ p, NoDup p.2.*1) (add_event e d).
Proof.
  induction d as [|[a0 ss] d IH]; cbn.
  - intros _. repeat constructor. apply not_elem_of_nil.
  - intros [Hss Hd]%Forall_cons.
    destruct (String.eqb (agent_type e) a0).
    + apply Forall_cons. split; [|done]. cbn. by apply keys_append_to.
    + apply Forall_cons. split; [done|]. by apply IH.
Qed.

Lemma group_add_event e d a k :
  group (add_event e d) a k
  = if decide (in_session a k e) then group d a k ++ [e] else group d a k.
Proof.
  unfold group, in_session. rewrite alookup_add_event.
  destruct (String.eqb_spec a (agent_type e)) as [->|Hne]; cbn.
  - rewrite alookup_append_to.
    destruct (String.eqb_spec k (session_key e)) as [->|Hne]; cbn.
    + case_decide as Hd; [|by destruct Hd].
      by destruct (alookup (agent_type e) d).
    + case_decide as Hd; [by destruct Hd|].
      by destruct (alookup (agent_type e) d).
  - case_decide as Hd; [by destruct Hd|done].
Qed.

Lemma agent_sessions_snoc events e :
  agent_sessions (events ++ [e]) = add_event e (agent_sessions events).
Proof. unfold agent_sessions. by rewrite foldl_app. Qed.

Lemma group_agent_sessions events a k :
  group (agent_sessions events) a k = filter (in_session a k) events.
Proof.
  induction events as [|e events IH] using rev_ind; [done|].
  rewrite agent_sessions_snoc, group_add_event, filter_app, IH.
  rewrite filter_cons, filter_nil.
  case_decide; [done|]. by rewrite app_nil_r.
Qed.

Lemma agent_sessions_keys events :
  NoDup (agent_sessions events).*1
  ∧ Forall (λ p, NoDup p.2.*1) (agent_sessions events).
Proof.
  induction events as [|e events [IH1 IH2]] using rev_ind.
  - split; [apply NoDup_nil_2 | apply Forall_nil_2].
  - rewrite agent_sessions_snoc. split.
    + by apply keys_add_event.
    + by apply inner_keys_add_event.
Qed.

(** The stored group of a session is exactly the events of its agent type
    and session key, in input order. *)
Lemma agent_sessions_elem_of events a ss k raw :
  (a, ss) ∈ agent_sessions events → (k, raw) ∈ ss →
  raw = filter (in_session a k) events.
Proof.
  intros Ha Hk. destruct (agent_sessions_keys events) as [Hnd Hinner].
  rewrite <- group_agent_sessions. unfold group.
  rewrite (elem_of_alookup _ _ _ Hnd Ha); cbn.
  rewrite Forall_forall in Hinner.
  pose proof (Hinner _ Ha) as Hss. cbn in Hss.
  by rewrite (elem_of_alookup _ _ _ Hss Hk).
Qed.

Lemma sessions_elem_of events a k session_events :
  (a, k, session_events) ∈ sessions events ↔
  ∃ ss raw, (a, ss) ∈ agent_sessions events ∧ (k, raw) ∈ ss
            ∧ session_events = sort_by_timestamp raw.
Proof.
  unfold sessions. rewrite list_elem_of_bind. split.
  - intros ([a' ss] & Hin & Ha). cbn in Hin.
    apply list_elem_of_bind in Hin as ([k' raw] & Hin & Hk). cbn in Hin.
    apply list_elem_of_singleton in Hin as [= -> -> ->].
    by exists ss, raw.
  - intros (ss & raw & Ha & Hk & ->). exists (a, ss). split; [|done].
    cbn. apply list_elem_of_bind. exists (k, raw). split; [|done].
    cbn. apply list_elem_of_here.
Qed.

Lemma sessions_spec events a k session_events :
  (a, k, session_events) ∈ sessions events →
  session_events = sort_by_timestamp (filter (in_session a k) events).
Proof.
  intros (ss & raw & Ha & Hk & ->)%sessions_elem_of.
  by rewrite (agent_sessions_elem_of _ _ _ _ _ Ha Hk).
Qed.

(** *** The sort *)

Lemma insert_by_timestamp_perm e l : insert_by_timestamp e l ≡ₚ e :: l.
Proof.
  induction l as [|y l IH]; cbn; [done|].
  destruct (timestamp e <=? timestamp y); [done|].
  rewrite IH. apply Permutation_swap.
Qed.

Lemma sort_by_timestamp_perm l : sort_by_timestamp l ≡ₚ l.
Proof.
  induction l as [|e l IH]; cbn; [done|].
  by rewrite insert_by_timestamp_perm, IH.
Qed.

Lemma insert_by_timestamp_sorted e l :
  StronglySorted by_timestamp l →
  StronglySorted by_timestamp (insert_by_timestamp e l).
Proof.
  induction l as [|y l IH]; cbn; intros Hl.
  - repeat constructor.
  - apply StronglySorted_cons in Hl as [Hy Hl].
    destruct (Z.leb_spec (timestamp e) (timestamp y)) as [Hle|Hgt].
    + apply StronglySorted_cons. split.
      * apply Forall_cons. split; [done|].
        eapply Forall_impl; [exact Hy|]. unfold by_timestamp. intros; lia.
      * by apply StronglySorted_cons.
    + apply StronglySorted_cons. split; [|by apply IH].
      rewrite insert_by_timestamp_perm. apply Forall_cons. split; [|done].
      unfold by_timestamp. lia.
Qed.

Lemma sort_by_timestamp_sorted l :
  StronglySorted by_timestamp (sort_by_timestamp l).
Proof.
  induction l as [|e l IH]; cbn.
  - constructor.
  - by apply insert_by_timestamp_sorted.
Qed.






(** *** Sessions and flows *)

Lemma sessions_complete events e :
  e ∈ events →
  ∃ session_events,
    (agent_type e, session_key e, session_events) ∈ sessions events
    ∧ e ∈ session_events.
Proof.
  intros He.
  assert (Hin : e ∈ group (agent_sessions events) (agent_type e)
                      (session_key e)).
  { rewrite group_agent_sessions. apply list_elem_of_filter. by split. }
  unfold group in Hin.
  destruct (alookup (agent_type e) (agent_sessions events)) as [ss|] eqn:Ha;
    cbn in Hin; [|by apply elem_of_nil in Hin].
  destruct (alookup (session_key e) ss) as [raw|] eqn:Hk;
    cbn in Hin; [|by apply elem_of_nil in Hin].
  exists (sort_by_timestamp raw). split.
  - apply sessions_elem_of. exists ss, raw.
    split; [by apply alookup_elem_of|]. split; [by apply alookup_elem_of|done].
  - by rewrite sort_by_timestamp_perm.
Qed.

Lemma session_keys_inner (a : string) (ss : list (string * list TelemetryEvent)) :
  fst <$> (s ← ss; [(a, s.1, sort_by_timestamp s.2)]) = pair a <$> ss.*1.
Proof. induction ss as [|s ss IH]; cbn; [done|]. by f_equal. Qed.

Lemma session_keys_outer
    (d : list (string * list (string * list TelemetryEvent))) :
  fst <$> (a ← d; s ← a.2; [(a.1, s.1, sort_by_timestamp s.2)])
  = a ← d; pair a.1 <$> a.2.*1.
Proof.
  induction d as [|p d IH]; cbn; [done|].
  by rewrite fmap_app, session_keys_inner, IH.
Qed.

Lemma session_keys_nodup
    (d : list (string * list (string * list TelemetryEvent))) :
  NoDup d.*1 → Forall (λ p, NoDup p.2.*1) d →
  NoDup (a ← d; pair a.1 <$> a.2.*1).
Proof.
  induction d as [|[a0 ss] d IH]; cbn; [constructor|].
  intros [Ha0 Hd]%NoDup_cons [Hss Hinner]%Forall_cons. cbn in Hss.
  apply NoDup_app. split; [|split].
  - apply NoDup_fmap_2; [|done]. by intros ?? [= ->].
  - intros [a' k'] [k0 [[= -> ->] _]]%list_elem_of_fmap
           ([a1 ss1] & Hk & Ha1)%list_elem_of_bind.
    cbn in Hk. apply list_elem_of_fmap in Hk as [k1 [[= -> ->] _]].
    apply Ha0. apply list_elem_of_fmap. by exists (a1, ss1).
  - by apply IH.
Qed.

Lemma sessions_nodup events : NoDup (fst <$> sessions events).
Proof.
  unfold sessions. rewrite session_keys_outer.
  destruct (agent_sessions_keys events). by apply session_keys_nodup.
Qed.

Lemma append_to_nonempty {A} (k : string) (x : A) d :
  Forall (λ s, s.2 ≠ []) d → Forall (λ s, s.2 ≠ []) (append_to k x d).
Proof.
  induction d as [|[k0 xs] d IH]; cbn.
  - intros _. by repeat constructor.
  - intros [Hxs Hd]%Forall_cons. destruct (String.eqb k k0).
    + apply Forall_cons. split; [|done]. cbn. by destruct xs.
    + apply Forall_cons. split; [done|]. by apply IH.
Qed.

Lemma agent_sessions_nonempty events :
  Forall (λ p, Forall (λ s, s.2 ≠ []) p.2) (agent_sessions events).
Proof.
  induction events as [|e events IH] using rev_ind; [constructor|].
  rewrite agent_sessions_snoc.
  induction (agent_sessions events) as [|[a0 ss] d IHd]; cbn.
  - by repeat constructor.
  - apply Forall_cons in IH as [Hss Hd]. destruct (String.eqb (agent_type e) a0).
    + apply Forall_cons. split; [|done]. cbn. by apply append_to_nonempty.
    + apply Forall_cons. split; [done|]. by apply IHd.
Qed.

Lemma sessions_nonempty events :
  Forall (λ s, s.2 ≠ []) (sessions events).
Proof.
  apply Forall_forall. intros [[a k] evs] (ss & raw & Ha & Hk & ->)%sessions_elem_of.
  cbn. intros Hnil.
  pose proof (agent_sessions_nonempty events) as H.
  rewrite Forall_forall in H. specialize (H _ Ha). cbn in H.
  rewrite Forall_forall in H. specialize (H _ Hk). cbn in H.
  apply H. apply Permutation_nil_r. rewrite <- Hnil.
  by rewrite sort_by_timestamp_perm.
Qed.

Lemma stats_turn_key f t f' :
  stats_turn f t = Ok f' → flow_key f' = flow_key f.
Proof.
  unfold stats_turn, bind. repeat case_match; try done. by intros [= <-].
Qed.

Lemma flow_statistics_key flow stats :
  _calculate_flow_statistics flow = Ok stats → flow_key stats = flow_key flow.
Proof.
  unfold _calculate_flow_statistics.
  change (flow_key flow) with (flow_key (reset_statistics flow)).
  generalize (reset_statistics flow) as f.
  induction (turns flow) as [|t ts IH]; intros f; cbn.
  - by intros [= <-].
  - destruct (stats_turn f t) as [f1|] eqn:H1; cbn; [|done].
    intros H. rewrite (IH _ H). by apply (stats_turn_key f t).
Qed.

Lemma analyze_sessions_keys ss : ∀ flows0 flows,
  Forall (λ s, s.2 ≠ []) ss →
  foldM analyze_session flows0 ss = Ok flows →
  flow_key <$> flows = (flow_key <$> flows0) ++ (fst <$> ss).
Proof.
  induction ss as [|[[a k] evs] ss IH]; intros flows0 flows; cbn.
  - intros _ [= <-]. by rewrite app_nil_r.
  - intros [Hevs Hss]%Forall_cons. cbn in Hevs.
    destruct evs as [|first evs]; [done|].
    match goal with
    | |- bind (bind ?r _) _ = _ → _ => destruct r as [stats|] eqn:Hstats
    end; cbn; [|done].
    intros H. rewrite (IH _ _ Hss H), fmap_app. cbn.
    rewrite (flow_statistics_key _ _ Hstats). cbn.
    by rewrite <- app_assoc.
Qed.

(** C10. A session is named by the pair of an agent type and a session
    key: its events all have that agent type and that key, so an event
    with the same session key and another agent type is never among them
    (it is in the session of its own agent type); no pair names two
    sessions, and the conversation flows are the sessions, pair by pair. *)
Theorem flows_partitioned_by_agent_and_key
    (events : list TelemetryEvent) (a k : string)
    (session_events : list TelemetryEvent) (e1 e2 : TelemetryEvent)
    (flows : list ConversationFlow) :
  (a, k, session_events) ∈ sessions events →
  e1 ∈ session_events →
  e2 ∈ events →
  session_key e2 = session_key e1 →
  agent_type e2 ≠ agent_type e1 →
  analyze_conversation_flow events [] = Ok flows →
  agent_type e1 = a ∧ session_key e1 = k
  ∧ (e2 ∉ session_events)
  ∧ (∃ other,
        (agent_type e2, k, other) ∈ sessions events
        ∧ e2 ∈ other ∧ e1 ∉ other)
  ∧ NoDup (fst <$> sessions events)
  ∧ flow_key <$> flows = fst <$> sessions events.
Proof.
  intros Hs He1 He2 Hkey Hagent Hflows.
  pose proof (sessions_spec _ _ _ _ Hs) as ->.
  rewrite sort_by_timestamp_perm in He1.
  apply list_elem_of_filter in He1 as [[Ha1 Hk1] He1].
  split; [done|]. split; [done|]. split; [|split; [|split]].
  - rewrite sort_by_timestamp_perm.
    intros [[Ha2 _] _]%list_elem_of_filter. congruence.
  - destruct (sessions_complete _ _ He2) as (other & Ho & Hin).
    exists other. rewrite <- Hk1, <- Hkey. split; [done|]. split; [done|].
    pose proof (sessions_spec _ _ _ _ Ho) as ->.
    rewrite sort_by_timestamp_perm.
    intros [[Ha2 _] _]%list_elem_of_filter. congruence.
  - apply sessions_nodup.
  - unfold analyze_conversation_flow in Hflows.
    by rewrite (analyze_sessions_keys _ _ _ (sessions_nonempty events) Hflows).
Qed.

Lemma flows_partitioned_by_agent_and_key_witness :
  flow_key <$> SampleSessions.flows
  = [("claude-code", "trace-1"); ("gemini-cli", "trace-1")].
Proof.
  destruct (flows_partitioned_by_agent_and_key SampleSessions.events
              "claude-code" "trace-1"
              [SampleSessions.early_1; SampleSessions.early_2;
               SampleSessions.late]
              SampleSessions.late SampleSessions.other_agent
              SampleSessions.flows) as (_ & _ & _ & _ & _ & Hflows).
  - vm_compute. apply list_elem_of_here.
  - do 2 apply list_elem_of_further. apply list_elem_of_here.
  - apply list_elem_of_further, list_elem_of_here.
  - reflexivity.
  - discriminate.
  - vm_compute. reflexivity.
  - rewrite Hflows. vm_compute. reflexivity.
Defined.

(** ** Attribute Extractor *)

Lemma list_to_map_dict_get (d : list (string * json)) (k : string) :
  (list_to_map d : gmap string json) !! k = dict_get k d.
Proof.
  induction d as [|[k' v] d IH]; cbn; [apply lookup_empty|].
  destruct (String.eqb_spec k k') as [->|Hne].
  - apply lookup_insert_eq.
  - rewrite lookup_insert_ne by done. apply IH.
Qed.

Lemma lookup_update (m : gmap string json) (d : list (string * json)) k :
  update m d !! k
  = match dict_get k d with
    | Some v => Some v
    | None => m !! k
    end.
Proof.
  unfold update. rewrite lookup_union, list_to_map_dict_get.
  destruct (dict_get k d), (m !! k); done.
Qed.

Lemma dict_get_truthy k items v :
  dict_get k items = Some v → truthy (JDict items) = true.
Proof. by destruct items. Qed.

(** C4, as the code has it.  For a record with an event-level attributes
    mapping and a [resource.attributes] mapping, the extractor returns the
    resource-level value for every key of [resource.attributes], and the
    event-level value only for the keys that the resource level does not
    have: on a shared key the resource-level value replaces the
    event-level one. *)
Theorem resource_attributes_overwrite
    (items rfields ev res : list (string * json)) :
  dict_get "attributes" items = Some (JDict ev) →
  dict_get "resource" items = Some (JDict rfields) →
  dict_get "attributes" rfields = Some (JDict res) →
  ∃ m,
    _extract_attributes (JDict items) = Ok m
    ∧ ∀ k, m !! k = match dict_get k res with
                    | Some v => Some v
                    | None => dict_get k ev
                    end.
Proof.
  intros Hev Hres Hrattrs.
  unfold _extract_attributes, direct_attributes; cbn.
  rewrite Hev; cbn. rewrite Hres; cbn.
  pose proof (dict_get_truthy _ _ _ Hrattrs) as Htruthy. cbn in Htruthy.
  rewrite Htruthy, Hrattrs; cbn.
  eexists. split; [done|].
  intros k. rewrite !lookup_update, lookup_empty.
  by destruct (dict_get k res), (dict_get k ev).
Qed.

Lemma resource_attributes_overwrite_witness :
  ∃ m,
    _extract_attributes SampleRecords.with_both_attributes = Ok m
    ∧ m !! "service.version" = Some (JStr "resource")
    ∧ m !! "model" = Some (JStr "m").
Proof.
  destruct (resource_attributes_overwrite
              [("attributes",
                JDict [("service.version", JStr "event"); ("model", JStr "m")]);
               ("resource",
                JDict [("attributes",
                        JDict [("service.version", JStr "resource")])])]
              [("attributes", JDict [("service.version", JStr "resource")])]
              [("service.version", JStr "event"); ("model", JStr "m")]
              [("service.version", JStr "resource")])
    as (m & Hm & Hk); [reflexivity ..|].
  exists m. split; [exact Hm|]. by rewrite !Hk.
Defined.

(** C4 fails on the code: the event-level value of the shared key is
    lost, the extractor returns the resource-level one. *)
Lemma event_level_attribute_overwritten :
  (do m <- _extract_attributes SampleRecords.with_both_attributes;
   Ok (m !! "service.version"))
  = Ok (Some (JStr "resource")).
Proof. vm_compute. reflexivity. Qed.

(** ** Timestamp Normalizer *)








(** ** OpenTelemetry log records *)

(** C6, as the code has it.  A log record is normalised into an event
    only if its attributes are present and non-empty (otherwise nothing is
    returned, and nothing is kept); the event name is [body.stringValue],
    else the [event.name] attribute; a record with attributes that has
    neither is not discarded: it yields an event whose name is the empty
    string, and the final filter keeps it. *)
Theorem log_record_unwrapping
    (B : Builtins) (items other : list (string * json)) (entries : list json)
    (attributes : list (string * json)) (body_name : option json)
    (timestamp : json) :
  dict_get "attributes" items = Some (JList entries) →
  entries ≠ [] →
  foldM (Legacy.add_attr B) [] entries = Ok attributes →
  body_string items = Ok body_name →
  timestamp
    = default JNull
        (match dict_get "timeUnixNano" items with
         | Some v => Some v
         | None => dict_get "observedTimeUnixNano" items
         end) →
  default false (truthy <$> dict_get "attributes" other) = false →
  Legacy.parse_log_record B (JDict other) = Ok JNull
  ∧ Legacy.parse_log_record B (JDict items)
    = Ok (log_event timestamp (Legacy.event_name_of body_name attributes)
            attributes)
  ∧ List.filter truthy
      [JNull;
       log_event timestamp (Legacy.event_name_of body_name attributes)
         attributes]
    = [log_event timestamp (Legacy.event_name_of body_name attributes)
         attributes]
  ∧ (∀ name, body_name = Some name → truthy name = true →
       Legacy.event_name_of body_name attributes = name)
  ∧ (∀ name, default false (truthy <$> body_name) = false →
       dict_get "event.name" attributes = Some name →
       Legacy.event_name_of body_name attributes = name)
  ∧ (body_name = None → dict_get "event.name" attributes = None →
     Legacy.event_name_of body_name attributes = JStr "").
Proof.
  intros Hattrs Hne Hfold Hbody -> Hother.
  split; [|split; [|split; [|split; [|split]]]].
  - unfold Legacy.parse_log_record; cbn.
    destruct (dict_get "attributes" other) as [v|]; cbn in *; [|done].
    by rewrite Hother.
  - unfold Legacy.parse_log_record; cbn. rewrite Hattrs; cbn.
    destruct entries as [|entry entries]; [done|]. cbn [negb].
    rewrite Hfold; cbn -[body_string].
    unfold body_string in Hbody. rewrite Hbody; cbn. done.
  - done.
  - intros name -> Hname. unfold Legacy.event_name_of; cbn. by rewrite Hname.
  - intros name Hfalsy Hname. unfold Legacy.event_name_of.
    destruct body_name as [v|]; cbn in *.
    + by rewrite Hfalsy, Hname.
    + by rewrite Hname.
  - intros -> Hname. unfold Legacy.event_name_of; cbn. by rewrite Hname.
Qed.

Lemma log_record_unwrapping_witness :
  Legacy.parse_log_record no_builtins SampleRecords.unnamed_log_record
  = Ok (log_event (JStr "1700000000000000000") (JStr "")
          [("session.id", JStr "s1")]).
Proof.
  destruct (log_record_unwrapping no_builtins
              [("timeUnixNano", JStr "1700000000000000000");
               ("attributes",
                JList [JDict [("key", JStr "session.id");
                              ("value", JDict [("stringValue", JStr "s1")])]])]
              [("attributes", JList [])]
              [JDict [("key", JStr "session.id");
                      ("value", JDict [("stringValue", JStr "s1")])]]
              [("session.id", JStr "s1")] None
              (JStr "1700000000000000000"))
    as (_ & Hevent & _); [reflexivity | discriminate | reflexivity ..|].
  exact Hevent.
Defined.

(** C6 fails on the code: a log record with attributes, without
    [body.stringValue] and without an [event.name] attribute, is not
    discarded: it becomes an event named by the empty string, and
    [parse_jsonl] returns it. *)
Lemma unnamed_log_record_is_kept :
  Legacy.parse_log_record no_builtins SampleRecords.unnamed_log_record
  = Ok (log_event (JStr "1700000000000000000") (JStr "")
          [("session.id", JStr "s1")])
  ∧ Legacy.parse_jsonl SampleRecords.reader ["envelope"]
    = Ok ([log_event (JStr "1700000000000000000") (JStr "")
             [("session.id", JStr "s1")]], []).
Proof. split; vm_compute; reflexivity. Qed.

(** ** Ingestion *)


Section Loader.

Variable B : Builtins.
Variables agent_type file_name : string.

(** What one line does to the loader's state. *)
Lemma load_line_spec st line_num line :
  let st' := load_line B agent_type file_name st (line_num, line) in
  st'.1 = st.1 ++ option_list (line_event B agent_type file_name line)
  ∧ length st'.2
    = (length st.2
       + if malformed B agent_type file_name line then 1 else 0)%nat.
Proof.
  unfold load_line, malformed, well_formed, line_event, _parse_event.
  destruct (PyStr.blank line); cbn.
  { rewrite app_nil_r. split; [done | lia]. }
  destruct (orjson_loads B line) as [data|]; cbn.
  - destruct (parse_event_body B data agent_type file_name); cbn.
    + rewrite app_nil_r. split; [done | lia].
    + rewrite app_nil_r, length_app. split; [done | cbn; lia].
  - rewrite app_nil_r, length_app. split; [done | cbn; lia].
Qed.

Lemma load_fold lines : ∀ start st,
  let st' := foldl (load_line B agent_type file_name) st
               (enumerate_from start lines) in
  st'.1 = st.1 ++ omap (line_event B agent_type file_name) lines
  ∧ length st'.2
    = (length st.2
       + length (List.filter (malformed B agent_type file_name) lines))%nat.
Proof.
  induction lines as [|line lines IH]; intros start st.
  - cbn. rewrite app_nil_r. split; [done | lia].
  - destruct (load_line_spec st start line) as [H1 H2].
    destruct (IH (S start)
                (load_line B agent_type file_name st (start, line)))
      as [IH1 IH2].
    cbn zeta in *. cbn [enumerate_from foldl].
    rewrite IH1, IH2, H1, H2. cbn [omap list_omap List.filter]. split.
    + rewrite <- app_assoc.
      by destruct (line_event B agent_type file_name line).
    + destruct (malformed B agent_type file_name line); cbn; lia.
Qed.


End Loader.



(** Two well-formed lines around a malformed line and a blank one. *)
Example load_file_sample :
  let out :=
    _load_file SampleRecords.reader ["{}"; "{oops"; "   "; "{}"]
      "claude-code" "claude-telemetry.jsonl" [] in
  length out.1 = 2%nat
  ∧ out.2 = [FailedToParseLine 2 JSONDecodeError].
Proof. vm_compute. done. Qed.

(** * Further properties *)

(** ** Flows and their sessions *)

Lemma stats_turn_fields f t f' :
  stats_turn f t = Ok f' →
  flow_key f' = flow_key f
  ∧ user_name f' = user_name f ∧ user_email f' = user_email f
  ∧ start_time f' = start_time f ∧ end_time f' = end_time f
  ∧ turns f' = turns f
  ∧ error_count f' = error_count f + Z.of_nat (length (errors t)).
Proof.
  unfold stats_turn, bind. repeat case_match; try done. by intros [= <-].
Qed.

Lemma stats_fold_fields ts : ∀ f f',
  foldM stats_turn f ts = Ok f' →
  flow_key f' = flow_key f
  ∧ user_name f' = user_name f ∧ user_email f' = user_email f
  ∧ start_time f' = start_time f ∧ end_time f' = end_time f
  ∧ turns f' = turns f
  ∧ error_count f'
    = error_count f + Zsum ((λ t, Z.of_nat (length (errors t))) <$> ts).
Proof.
  induction ts as [|t ts IH]; intros f f'; cbn.
  - intros [= <-]. unfold Zsum; cbn. repeat split; lia.
  - destruct (stats_turn f t) as [f1|] eqn:H1; cbn; [|done].
    intros H. apply IH in H as (? & ? & ? & ? & ? & ? & Herr).
    apply stats_turn_fields in H1 as (? & ? & ? & ? & ? & ? & Herr1).
    repeat split; try congruence.
    rewrite Herr, Herr1. unfold Zsum; cbn. lia.
Qed.

Lemma flow_statistics_fields flow stats :
  _calculate_flow_statistics flow = Ok stats →
  flow_key stats = flow_key flow
  ∧ user_name stats = user_name flow ∧ user_email stats = user_email flow
  ∧ start_time stats = start_time flow ∧ end_time stats = end_time flow
  ∧ turns stats = turns flow
  ∧ error_count stats
    = Zsum ((λ t, Z.of_nat (length (errors t))) <$> turns flow).
Proof.
  unfold _calculate_flow_statistics. intros H.
  apply stats_fold_fields in H as (? & ? & ? & ? & ? & ? & Herr).
  cbn in Herr. rewrite Z.add_0_l in Herr. by repeat split.
Qed.

Lemma analyze_session_describes flows a k session_events flows' :
  session_events ≠ [] →
  analyze_session flows (a, k, session_events) = Ok flows' →
  ∃ f, flows' = flows ++ [f] ∧ describes (a, k, session_events) f.
Proof.
  intros Hne. unfold analyze_session.
  destruct session_events as [|first rest] eqn:Hevs; [done|].
  match goal with
  | |- bind ?r _ = _ → _ => destruct r as [stats|] eqn:Hstats
  end; cbn; [|done].
  intros [= <-]. exists stats. split; [done|].
  apply flow_statistics_fields in Hstats
    as (Hk & Hn & He & Hs & Hend & Ht & Herr).
  rewrite process_turns in Ht, Herr. cbn in Hk, Hn, He, Hs, Hend, Ht, Herr.
  unfold describes. cbn [fst snd head fmap option_fmap option_map].
  rewrite Hk, Hn, He, Hs, Hend, Ht, Herr. done.
Qed.

Lemma analyze_sessions_describe ss : ∀ flows0 flows,
  Forall (λ s, s.2 ≠ []) ss →
  foldM analyze_session flows0 ss = Ok flows →
  ∃ new, flows = flows0 ++ new ∧ Forall2 describes ss new.
Proof.
  induction ss as [|[[a k] evs] ss IH]; intros flows0 flows.
  - intros _ [= <-]. exists []. by rewrite app_nil_r.
  - intros [Hevs Hss]%Forall_cons. cbn [foldM].
    destruct (analyze_session flows0 (a, k, evs)) as [flows1|] eqn:H1;
      cbn; [|done].
    intros H. destruct (IH _ _ Hss H) as (new & -> & Hnew).
    destruct (analyze_session_describes _ _ _ _ _ Hevs H1) as (f & -> & Hf).
    exists (f :: new). rewrite <- app_assoc. split; [done|].
    by constructor.
Qed.

(** Every flow of the analysis describes one session of the input. *)
Lemma flows_describe_sessions events flows :
  analyze_conversation_flow events [] = Ok flows →
  Forall2 describes (sessions events) flows.
Proof.
  intros H.
  destruct (analyze_sessions_describe _ _ _ (sessions_nonempty events) H)
    as (new & -> & Hnew).
  done.
Qed.

Lemma flow_session events flows f :
  analyze_conversation_flow events [] = Ok flows →
  f ∈ flows →
  describes
    (flow_agent_type f, session_id f,
     sort_by_timestamp
       (filter (in_session (flow_agent_type f) (session_id f)) events)) f.
Proof.
  intros H Hf. apply flows_describe_sessions in H.
  apply list_elem_of_lookup in Hf as [i Hi].
  destruct (Forall2_lookup_r _ _ _ _ _ H Hi) as ([[a k] evs] & Hs & Hd).
  apply list_elem_of_lookup_2 in Hs.
  pose proof (sessions_spec _ _ _ _ Hs) as Hevs.
  pose proof Hd as Hd'. destruct Hd' as [Hkey _]. cbn in Hkey.
  injection Hkey as -> ->. by rewrite <- Hevs.
Qed.

Lemma sorted_head_le l h x :
  StronglySorted by_timestamp l → head l = Some h → x ∈ l →
  timestamp h ≤ timestamp x.
Proof.
  destruct l as [|h' l]; [done|]. cbn. intros Hs [= ->].
  apply StronglySorted_cons in Hs as [Hh _].
  intros [->|Hx]%elem_of_cons; [lia|].
  rewrite Forall_forall in Hh. by apply Hh.
Qed.

Lemma sorted_last_ge l z x :
  StronglySorted by_timestamp l → last l = Some z → x ∈ l →
  timestamp x ≤ timestamp z.
Proof.
  intros Hs [l' ->]%last_Some.
  intros [Hx|Hz%list_elem_of_singleton]%elem_of_app; [|subst; lia].
  apply (StronglySorted_app_1_elem_of by_timestamp l' [z] x z Hs Hx).
  apply list_elem_of_here.
Qed.

(** X1. The time span of a flow is the span of its session: [start_time]
    is the earliest and [end_time] the latest timestamp among the input
    events of the flow's agent type and session key, both attained by such
    an event, and every event of the session lies between them. *)
Theorem flow_time_span
    (events : list TelemetryEvent) (flows : list ConversationFlow)
    (f : ConversationFlow) (e : TelemetryEvent) :
  analyze_conversation_flow events [] = Ok flows →
  f ∈ flows →
  e ∈ events →
  in_session (flow_agent_type f) (session_id f) e →
  ∃ finish first final,
    end_time f = Some finish
    ∧ start_time f ≤ timestamp e ≤ finish
    ∧ first ∈ events ∧ in_session (flow_agent_type f) (session_id f) first
    ∧ timestamp first = start_time f
    ∧ final ∈ events ∧ in_session (flow_agent_type f) (session_id f) final
    ∧ timestamp final = finish.
Proof.
  intros Hflows Hf He Hin.
  destruct (flow_session _ _ _ Hflows Hf)
    as (_ & _ & _ & Hstart & Hend & _).
  cbn [fst snd] in Hstart, Hend.
  set (l := sort_by_timestamp
              (filter (in_session (flow_agent_type f) (session_id f)) events))
    in *.
  assert (Hl : ∀ x, x ∈ l ↔
                 in_session (flow_agent_type f) (session_id f) x ∧ x ∈ events).
  { intros x. unfold l. rewrite sort_by_timestamp_perm.
    apply list_elem_of_filter. }
  assert (Hel : e ∈ l) by by apply Hl.
  pose proof (sort_by_timestamp_sorted
                (filter (in_session (flow_agent_type f) (session_id f)) events))
    as Hsorted. fold l in Hsorted.
  destruct (head l) as [first|] eqn:Hhead; [|done].
  destruct (last l) as [final|] eqn:Hlast;
    [|apply last_None in Hlast; by rewrite Hlast in Hhead].
  cbn in Hstart, Hend. injection Hstart as Hstart.
  exists (timestamp final), first, final.
  assert (Hfirst : first ∈ l) by by apply head_Some_elem_of.
  assert (Hfinal : final ∈ l).
  { apply last_Some in Hlast as [l' ->]. apply elem_of_app. right.
    apply list_elem_of_here. }
  apply Hl in Hfirst as [? ?]. apply Hl in Hfinal as [? ?].
  rewrite Hstart.
  pose proof (sorted_head_le _ _ _ Hsorted Hhead Hel).
  pose proof (sorted_last_ge _ _ _ Hsorted Hlast Hel).
  split; [done|]. split; [lia|]. by repeat (split; [done|]).
Qed.

Lemma flow_time_span_witness :
  ∃ f, f ∈ SampleSessions.flows
       ∧ start_time f = 10 ∧ end_time f = Some 30.
Proof.
  assert (Hf : default Sample.flow (head SampleSessions.flows)
               ∈ SampleSessions.flows)
    by (vm_compute; apply list_elem_of_here).
  destruct (flow_time_span SampleSessions.events SampleSessions.flows
              (default Sample.flow (head SampleSessions.flows))
              SampleSessions.late)
    as (finish & first & final & Hend & _);
    [ vm_compute; reflexivity | exact Hf
    | apply list_elem_of_here | by vm_compute |].
  exists (default Sample.flow (head SampleSessions.flows)).
  split; [exact Hf|]. split; vm_compute; reflexivity.
Defined.

(** ** What a turn keeps *)

Lemma fold_event_fixed t e :
  errors (fold_event t e) = errors t
  ∧ duration_ms (fold_event t e) = duration_ms t
  ∧ cost_estimate (fold_event t e) = cost_estimate t
  ∧ turn_agent_type (fold_event t e) = turn_agent_type t
  ∧ turn_timestamp (fold_event t e) = turn_timestamp t
  ∧ user_prompt (fold_event t e) = user_prompt t.
Proof.
  unfold fold_event, fold_into; cbn.
  destruct (_is_assistant_response e); [done|].
  destruct (_is_tool_call e); [done|].
  by destruct (_is_tool_result e).
Qed.

Lemma foldl_fold_event_fixed body : ∀ t,
  errors (foldl fold_event t body) = errors t
  ∧ duration_ms (foldl fold_event t body) = duration_ms t
  ∧ cost_estimate (foldl fold_event t body) = cost_estimate t
  ∧ turn_agent_type (foldl fold_event t body) = turn_agent_type t
  ∧ turn_timestamp (foldl fold_event t body) = turn_timestamp t
  ∧ user_prompt (foldl fold_event t body) = user_prompt t.
Proof.
  induction body as [|e body IH]; intros t; cbn [foldl]; [done|].
  destruct (IH (fold_event t e)) as (-> & -> & -> & -> & -> & ->).
  apply fold_event_fixed.
Qed.

Lemma spec_turn_fixed id agent prompt body :
  errors (spec_turn id agent prompt body) = []
  ∧ duration_ms (spec_turn id agent prompt body) = None
  ∧ cost_estimate (spec_turn id agent prompt body) = None
  ∧ turn_agent_type (spec_turn id agent prompt body) = agent
  ∧ turn_timestamp (spec_turn id agent prompt body) = Some (timestamp prompt)
  ∧ user_prompt (spec_turn id agent prompt body) = _extract_user_prompt prompt.
Proof.
  unfold spec_turn.
  by destruct (foldl_fold_event_fixed body
                 (_update_token_usage (new_turn id agent prompt) prompt))
    as (-> & -> & -> & -> & -> & ->).
Qed.




Lemma filter_sorted (p : TelemetryEvent → bool) l :
  StronglySorted by_timestamp l →
  StronglySorted by_timestamp (List.filter p l).
Proof.
  induction 1 as [|x l Hl IH Hx]; cbn; [constructor|].
  destruct (p x); [|done]. constructor; [done|].
  rewrite Forall_forall in Hx. apply Forall_forall.
  intros y Hy%list_elem_of_In. apply filter_In in Hy as [Hy _].
  apply Hx. by apply list_elem_of_In.
Qed.

Lemma spec_turns_prompts agent events : ∀ next,
  turn_timestamp <$> spec_turns agent next events
  = (λ e, Some (timestamp e)) <$> List.filter _is_user_prompt events
  ∧ user_prompt <$> spec_turns agent next events
    = _extract_user_prompt <$> List.filter _is_user_prompt events.
Proof.
  induction events as [|e events IH]; intros next; cbn; [done|].
  destruct (_is_user_prompt e); [|apply IH].
  destruct (IH (next + 1)) as [IH1 IH2]. cbn. rewrite IH1, IH2.
  by destruct (spec_turn_fixed next agent e (until_prompt events))
    as (_ & _ & _ & _ & -> & ->).
Qed.

(** X3. The turns of a flow are the prompt events of its session in
    chronological order: the timestamps and prompt texts of the turns are
    those of the session's prompt events sorted by timestamp, so the turn
    timestamps never decrease. *)
Theorem turns_follow_prompts
    (events : list TelemetryEvent) (flows : list ConversationFlow)
    (f : ConversationFlow) :
  analyze_conversation_flow events [] = Ok flows →
  f ∈ flows →
  let prompts :=
    List.filter _is_user_prompt
      (sort_by_timestamp
         (filter (in_session (flow_agent_type f) (session_id f)) events)) in
  turn_timestamp <$> turns f = (λ e, Some (timestamp e)) <$> prompts
  ∧ user_prompt <$> turns f = _extract_user_prompt <$> prompts
  ∧ StronglySorted by_timestamp prompts
  ∧ length (turns f) = length prompts.
Proof.
  intros Hflows Hf prompts.
  destruct (flow_session _ _ _ Hflows Hf) as (_ & _ & _ & _ & _ & Ht & _).
  cbn [fst snd] in Ht. rewrite Ht.
  destruct (spec_turns_prompts (flow_agent_type f)
    (sort_by_timestamp
       (filter (in_session (flow_agent_type f) (session_id f)) events)) 1)
    as [H1 H2].
  split; [exact H1|]. split; [exact H2|]. split.
  - apply filter_sorted, sort_by_timestamp_sorted.
  - apply (f_equal length) in H1. by rewrite !length_fmap in H1.
Qed.

Lemma turns_follow_prompts_witness :
  length (turns SampleAnalysis.flow) = 2%nat.
Proof.
  destruct (turns_follow_prompts SampleAnalysis.events SampleAnalysis.flows
              SampleAnalysis.flow) as (_ & _ & _ & Hlen);
    [vm_compute; reflexivity | vm_compute; apply list_elem_of_here |].
  rewrite Hlen. vm_compute. reflexivity.
Defined.

(** ** The user of a session *)





(** ** What the turns hold *)









(** ** The tool histogram and the failures of the statistics *)

Lemma count_tool_spec used tc used' name :
  count_tool used tc = Ok used' →
  default 0 (used' !! name)
  = default 0 (used !! name) + (if is_str name (tc_name tc) then 1 else 0).
Proof.
  unfold count_tool, is_str.
  destruct (tc_name tc) as [| | | |s| |]; try (intros [= <-]; lia); try done.
  intros [= <-]. destruct (String.eqb_spec s name) as [->|Hne].
  - by rewrite lookup_insert_eq.
  - rewrite lookup_insert_ne by done. lia.
Qed.

Lemma count_tools_spec tcs : ∀ used used' name,
  foldM count_tool used tcs = Ok used' →
  default 0 (used' !! name)
  = default 0 (used !! name)
    + Z.of_nat (length (List.filter (λ tc, is_str name (tc_name tc)) tcs)).
Proof.
  induction tcs as [|tc tcs IH]; intros used used' name; cbn.
  - intros [= <-]. lia.
  - destruct (count_tool used tc) as [used1|] eqn:H1; cbn; [|done].
    intros H. rewrite (IH _ _ _ H), (count_tool_spec _ _ _ name H1).
    destruct (is_str name (tc_name tc)); cbn [length]; lia.
Qed.

Lemma stats_turn_tools f t f' :
  stats_turn f t = Ok f' →
  foldM count_tool (tools_used f) (tool_calls t) = Ok (tools_used f').
Proof.
  unfold stats_turn, bind. repeat case_match; try done. by intros [= <-].
Qed.

Lemma stats_fold_tools ts : ∀ f f' name,
  foldM stats_turn f ts = Ok f' →
  default 0 (tools_used f' !! name)
  = default 0 (tools_used f !! name)
    + Z.of_nat
        (length (List.filter (λ tc, is_str name (tc_name tc))
                   (concat (tool_calls <$> ts)))).
Proof.
  induction ts as [|t ts IH]; intros f f' name; cbn.
  - intros [= <-]. lia.
  - destruct (stats_turn f t) as [f1|] eqn:H1; cbn; [|done].
    intros H. rewrite (IH _ _ _ H).
    rewrite (count_tools_spec _ _ _ name (stats_turn_tools _ _ _ H1)).
    rewrite List.filter_app, length_app. lia.
Qed.

(** X7. The tool histogram of a flow counts tool calls by name: for a flow
    whose turns hold integer token counts and hashable tool names, the
    statistics return, and [tools_used] maps every name to the number of
    tool calls of that name over all the turns. *)
Theorem tools_used_counts_calls (flow : ConversationFlow) (name : string) :
  forallb turn_typed (turns flow) = true →
  ∃ stats,
    _calculate_flow_statistics flow = Ok stats
    ∧ default 0 (tools_used stats !! name)
      = Z.of_nat
          (length (List.filter (λ tc, is_str name (tc_name tc))
                     (concat (tool_calls <$> turns flow)))).
Proof.
  intros Htyped.
  destruct (flow_statistics_ok flow Htyped) as (stats & Hs & _).
  exists stats. split; [done|].
  unfold _calculate_flow_statistics in Hs.
  rewrite (stats_fold_tools _ _ _ name Hs). cbn. by rewrite lookup_empty.
Qed.

Lemma tools_used_counts_calls_witness :
  ∃ stats,
    _calculate_flow_statistics
      (_process_conversation_turns Sample.flow
         [Sample.prompt_A; Sample.tool_call_X; Sample.tool_call_X]) = Ok stats
    ∧ default 0 (tools_used stats !! "X") = 2.
Proof.
  destruct (tools_used_counts_calls
              (_process_conversation_turns Sample.flow
                 [Sample.prompt_A; Sample.tool_call_X; Sample.tool_call_X])
              "X") as (stats & Hs & Hcount); [vm_compute; reflexivity|].
  exists stats. split; [exact Hs|]. rewrite Hcount. vm_compute. reflexivity.
Defined.

Lemma stats_turn_raises f t e : stats_turn f t = Raise e → e = TypeError.
Proof.
  unfold stats_turn, int_values, add_cost.
  case_decide; cbn; [|by intros [= <-]].
  assert (Htools : ∀ tcs used e',
            foldM count_tool used tcs = Raise e' → e' = TypeError).
  { induction tcs as [|tc tcs IH]; intros used e'; cbn; [done|].
    unfold count_tool at 1.
    destruct (tc_name tc); cbn; try apply IH; by intros [= <-]. }
  destruct (foldM count_tool (tools_used f) (tool_calls t)) eqn:Hc; cbn;
    [|intros [= <-]; by eapply Htools].
  repeat (case_match; cbn); try done; by intros [= <-].
Qed.

(** X8. One token count that is not a number makes the statistics of the
    whole flow fail: if some turn holds, under any key of its
    [token_usage], a string, [None], a list or a dictionary, then
    [_calculate_flow_statistics] raises [TypeError]. *)
Theorem non_numeric_tokens_raise
    (flow : ConversationFlow) (t : ConversationTurn) (key : string)
    (v : json) :
  t ∈ turns flow →
  token_usage t !! key = Some v →
  non_numeric v = true →
  _calculate_flow_statistics flow = Raise TypeError.
Proof.
  intros Ht Hv Hnon. unfold _calculate_flow_statistics.
  generalize (reset_statistics flow) as f.
  induction (turns flow) as [|t' ts IH]; intros f; [by apply elem_of_nil in Ht|].
  cbn. destruct (stats_turn f t') as [f1|e] eqn:H1; cbn.
  - apply elem_of_cons in Ht as [->|Ht]; [|by apply IH].
    exfalso. unfold stats_turn, int_values in H1.
    case_decide as Hall; [|done].
    destruct (Hall _ _ Hv) as [n Hn]. by destruct v.
  - by rewrite (stats_turn_raises _ _ _ H1).
Qed.

Lemma non_numeric_tokens_raise_witness :
  _calculate_flow_statistics
    (_process_conversation_turns Sample.flow
       [Sample.prompt_A; SampleAnalysis.tokens_as_text])
  = Raise TypeError.
Proof.
  apply (non_numeric_tokens_raise _
           (spec_turn 1 "claude-code" Sample.prompt_A
              [SampleAnalysis.tokens_as_text])
           "input" (JStr "120")).
  - rewrite process_turns. apply list_elem_of_here.
  - reflexivity.
  - reflexivity.
Defined.

(** ** When the analysis returns *)







(** ** Event Normalizer: timestamps *)

(** X10. A timestamp that is not a number never makes a record fail: for
    a record whose [timestamp] (or, when that key is absent,
    [timeUnixNano]) is absent, [null], a list, a dictionary or a string,
    [_extract_timestamp] returns; it returns the current time when the
    value is not a string and when the string is rejected by all three
    parsers.  A [timestamp] key that is present hides [timeUnixNano] even
    when its value is [null]. *)
Theorem non_numeric_timestamps_never_fail
    (B : Builtins) (items : list (string * json)) :
  (raw_timestamp items ≫= num_value = None →
   is_ok (_extract_timestamp B (JDict items)) = true)
  ∧ (default false (is_text <$> raw_timestamp items) = false →
     raw_timestamp items ≫= num_value = None →
     _extract_timestamp B (JDict items) = Ok (now B))
  ∧ (∀ s, raw_timestamp items = Some (JStr s) →
       fromisoformat B (replace_Z s) = None →
       strptime B s "%Y-%m-%dT%H:%M:%S.%fZ" = None →
       strptime B s "%Y-%m-%dT%H:%M:%SZ" = None →
       _extract_timestamp B (JDict items) = Ok (now B))
  ∧ (dict_get "timestamp" items = Some JNull →
     _extract_timestamp B (JDict items) = Ok (now B)).
Proof.
  assert (Hunfold :
    _extract_timestamp B (JDict items)
    = match raw_timestamp items with
      | Some (JStr s) =>
          match fromisoformat B (replace_Z s) with
          | Some d => Ok d
          | None =>
              match strptime B s "%Y-%m-%dT%H:%M:%S.%fZ" with
              | Some d => Ok d
              | None =>
                  match strptime B s "%Y-%m-%dT%H:%M:%SZ" with
                  | Some d => Ok d
                  | None => Ok (now B)
                  end
              end
          end
      | Some v =>
          match num_value v with
          | Some q => fromtimestamp (q / 1000000000)
          | None => Ok (now B)
          end
      | None => Ok (now B)
      end) by reflexivity.
  rewrite Hunfold. split; [|split; [|split]].
  - destruct (raw_timestamp items) as [v|]; [|done].
    destruct v; cbn; try done. by repeat case_match.
  - destruct (raw_timestamp items) as [v|]; [|done].
    destruct v; cbn; try done.
  - intros s -> -> -> ->. done.
  - unfold raw_timestamp. by intros ->.
Qed.

(** X11. A numeric timestamp beyond the range of [datetime] (after year
    9999 once divided by 1e9) makes the record fail to normalise: no event
    is produced for it and one warning is printed. *)
Theorem out_of_range_timestamp_drops_record
    (B : Builtins) (items : list (string * json)) (v : json) (q : Q)
    (agent_type file_name : string) :
  raw_timestamp items = Some v →
  num_value v = Some q →
  datetime_max < round_half_even (q / 1000000000 * 1000000) →
  ∃ e, _parse_event B (JDict items) agent_type file_name
       = (None, [FailedToParseEvent e]).
Proof.
  intros Hv Hq Hbig.
  assert (Hts : _extract_timestamp B (JDict items) = Raise OverflowError).
  { unfold _extract_timestamp; cbn. fold (raw_timestamp items). rewrite Hv.
    assert (fromtimestamp (q / 1000000000) = Raise OverflowError) as Hr.
    { unfold fromtimestamp.
      destruct (Z.leb_spec (round_half_even (q / 1000000000 * 1000000))
                  datetime_max); [lia|].
      by rewrite andb_false_r. }
    destruct v; cbn in Hq; try done; injection Hq as <-; exact Hr. }
  unfold _parse_event, parse_event_body. rewrite Hts. cbn. by eexists.
Qed.

Lemma out_of_range_timestamp_drops_record_witness :
  ∃ e, _parse_event no_builtins (SampleRecords.at_time (10 ^ 30))
         "claude-code" "traces.jsonl"
       = (None, [FailedToParseEvent e]).
Proof.
  apply (out_of_range_timestamp_drops_record no_builtins
           [("timestamp", JInt (10 ^ 30))] (JInt (10 ^ 30))
           (inject_Z (10 ^ 30)));
    [reflexivity | reflexivity | by vm_compute].
Defined.

(** ** Event Normalizer: what a loaded event carries *)

Lemma parse_event_body_inv B data agent file e :
  parse_event_body B data agent file = Ok e →
  ∃ items ts et sn attrs,
    data = JDict items
    ∧ _extract_timestamp B data = Ok ts
    ∧ _determine_event_type data file = Ok et
    ∧ _extract_service_name data agent = Ok sn
    ∧ _extract_attributes data = Ok attrs
    ∧ timestamp e = ts
    ∧ event_type e = as_str "unknown" et
    ∧ agent_type e = agent
    ∧ trace_id e = opt_str (dict_get "traceId" items)
    ∧ service_name e = as_str "unknown" sn
    ∧ attributes e = attrs
    ∧ raw_data e = data.
Proof.
  unfold parse_event_body.
  destruct (_extract_timestamp B data) as [ts|] eqn:Hts; cbn; [|done].
  destruct (_determine_event_type data file) as [et|] eqn:Het; cbn; [|done].
  destruct data as [| | | | | |items]; try done. cbn [bind py_get].
  destruct (_extract_service_name (JDict items) agent) as [sn|] eqn:Hsn;
    cbn [bind py_get]; [|done].
  destruct (_extract_attributes (JDict items)) as [attrs|] eqn:Hattrs;
    cbn [bind py_get]; [|done].
  intros [= <-]. by exists items, ts, et, sn, attrs.
Qed.

(** X12. The agent type is resolved per file, never per line: every event
    that [_load_file] adds carries the agent type passed for the file,
    keeps the parsed record, which is a JSON object, as [raw_data], and,
    when the file name contains "traces" (else "logs", else "metrics"),
    has the event type [trace] ([log], [metric]) whatever the record's own
    [type] field says. *)
Theorem loaded_events_carry_file_facts
    (B : Builtins) (agent file : string) (lines : list string)
    (e : TelemetryEvent) :
  e ∈ (_load_file B lines agent file []).1 →
  agent_type e = agent
  ∧ (∃ line items,
        line ∈ lines ∧ orjson_loads B line = Some (JDict items)
        ∧ raw_data e = JDict items)
  ∧ (PyStr.contains "traces" file = true → event_type e = "trace")
  ∧ (PyStr.contains "traces" file = false →
     PyStr.contains "logs" file = true → event_type e = "log")
  ∧ (PyStr.contains "traces" file = false →
     PyStr.contains "logs" file = false →
     PyStr.contains "metrics" file = true → event_type e = "metric").
Proof.
  unfold _load_file.
  destruct (load_fold B agent file lines 1 ([], [])) as [-> _]. cbn.
  intros (line & Hline & He)%list_elem_of_omap.
  unfold line_event in He. destruct (PyStr.blank line); [done|].
  destruct (orjson_loads B line) as [data|] eqn:Hload; cbn in He; [|done].
  destruct (parse_event_body B data agent file) as [e'|] eqn:Hbody; [|done].
  injection He as ->.
  apply parse_event_body_inv in Hbody
    as (items & ts & et & sn & attrs & -> & _ & Het & _ & _ & _ & Hty & Hag
        & _ & _ & _ & Hraw).
  split; [done|]. split; [by exists line, items|].
  unfold _determine_event_type in Het. rewrite Hty.
  split; [|split].
  - intros H. rewrite H in Het. by injection Het as <-.
  - intros H1 H2. rewrite H1, H2 in Het. by injection Het as <-.
  - intros H1 H2 H3. rewrite H1, H2, H3 in Het. by injection Het as <-.
Qed.

Lemma loaded_events_carry_file_facts_witness :
  Forall (λ e, agent_type e = "gemini-cli" ∧ event_type e = "trace")
    (_load_file SampleRecords.reader ["{}"; "{oops"; "{}"]
       "gemini-cli" "traces.jsonl" []).1.
Proof.
  apply Forall_forall. intros e He.
  destruct (loaded_events_carry_file_facts SampleRecords.reader
              "gemini-cli" "traces.jsonl" ["{}"; "{oops"; "{}"] e He)
    as (Hagent & _ & Htrace & _).
  split; [exact Hagent | by apply Htrace].
Defined.

(** ** Loading a directory *)

Lemma load_entries_spec B dir_name entries : ∀ st,
  foldl (load_entry B dir_name) st entries
  = (st.1 ++ concat (entry_events B dir_name <$> entries),
     (st.2 + length (List.filter is_file entries))%nat).
Proof.
  induction entries as [|entry entries IH]; intros [evs n]; cbn [foldl].
  - cbn. by rewrite app_nil_r, Nat.add_0_r.
  - rewrite IH. destruct entry as [name [| |lines]];
      unfold load_entry; cbn [entry_kind_of entry_name fst snd];
      rewrite fmap_cons; cbn [concat List.filter];
      unfold entry_events at 2, is_file at 2;
      cbn [entry_kind_of entry_name app].
    + done.
    + f_equal. cbn [length]. lia.
    + unfold _load_file.
      destruct (load_fold B
                  (detect_agent_type name dir_name (Regular lines))
                  name lines 1 (evs, [])) as [-> _].
      cbn [fst snd length]. rewrite <- app_assoc. f_equal. lia.
Qed.

Lemma load_patterns_spec B dir_name entries ps : ∀ st,
  foldl (load_pattern B dir_name entries) st ps
  = (st.1
     ++ concat
          ((λ p, concat
                   (entry_events B dir_name <$>
                      List.filter (λ e, glob_match p (entry_name e)) entries))
             <$> ps),
     (st.2
      + sum_nat
          ((λ p, length
                   (List.filter is_file
                      (List.filter (λ e, glob_match p (entry_name e))
                         entries))) <$> ps))%nat).
Proof.
  induction ps as [|p ps IH]; intros [evs n]; cbn [foldl].
  - cbn. by rewrite app_nil_r, Nat.add_0_r.
  - rewrite IH. unfold load_pattern. rewrite load_entries_spec.
    rewrite !fmap_cons. unfold sum_nat. cbn [fst snd concat foldr].
    rewrite <- app_assoc. f_equal. lia.
Qed.

Lemma sum_filter_split {A} (size count : A → nat) (q : A → bool)
    (entries : list A) :
  (sum_nat (size <$> List.filter q entries)
   + sum_nat ((λ e, count e * size e) <$> entries))%nat
  = sum_nat
      ((λ e, (if q e then S (count e) else count e) * size e)%nat
         <$> entries).
Proof.
  unfold sum_nat. induction entries as [|e entries IHe]; [done|].
  rewrite !fmap_cons. cbn [foldr List.filter]. rewrite <- IHe.
  destruct (q e); [rewrite fmap_cons; cbn [foldr]|]; lia.
Qed.

Lemma sum_by_entry {A} (size : A → nat) (name : A → string)
    (entries : list A) (ps : list string) :
  sum_nat
    ((λ p, sum_nat
             (size <$> List.filter (λ e, glob_match p (name e)) entries))
       <$> ps)
  = sum_nat
      ((λ e, (length (List.filter (λ p, glob_match p (name e)) ps)
              * size e)%nat) <$> entries).
Proof.
  unfold sum_nat. induction ps as [|p ps IH].
  - induction entries as [|e entries IHe]; [done|].
    rewrite fmap_cons. cbn [foldr List.filter length Nat.mul Nat.add].
    exact IHe.
  - rewrite fmap_cons. cbn [foldr]. rewrite IH. clear IH.
    fold (sum_nat
            (size <$> List.filter (λ e, glob_match p (name e)) entries)).
    fold (sum_nat
            ((λ e, (length (List.filter (λ p, glob_match p (name e)) ps)
                    * size e)%nat) <$> entries)).
    rewrite (sum_filter_split size
               (λ e, length (List.filter (λ p, glob_match p (name e)) ps))
               (λ e, glob_match p (name e))).
    unfold sum_nat. f_equal. apply list_fmap_ext. intros _ e _.
    cbn [List.filter]. by destruct (glob_match p (name e)).
Qed.

Lemma length_concat_sum {A} (ls : list (list A)) :
  length (concat ls) = sum_nat (length <$> ls).
Proof.
  unfold sum_nat. induction ls as [|l ls IH]; [done|].
  rewrite fmap_cons. cbn [concat foldr]. by rewrite length_app, IH.
Qed.

Lemma length_filter_sum {A} (p : A → bool) (l : list A) :
  length (List.filter p l) = sum_nat ((λ x, if p x then 1 else 0)%nat <$> l).
Proof.
  unfold sum_nat. induction l as [|x l IH]; [done|].
  rewrite fmap_cons. cbn [foldr List.filter].
  destruct (p x); cbn [length]; lia.
Qed.

Lemma multiplicity_jsonl name :
  multiplicity name
  = ((if ends_with ".jsonl" name then 1 else 0)
     + (if bool_decide
             (name ∈ ["claude-telemetry.jsonl"; "traces.jsonl"; "logs.jsonl";
                      "metrics.jsonl"]) then 1 else 0))%nat
  ∧ (name ∈ ["claude-telemetry.jsonl"; "traces.jsonl"; "logs.jsonl";
             "metrics.jsonl"] → ends_with ".jsonl" name = true).
Proof.
  split.
  - unfold multiplicity, patterns. cbn [List.filter glob_match].
    case_bool_decide as Hin.
    + rewrite !elem_of_cons, elem_of_nil in Hin.
      destruct Hin as [->|[->|[->|[->|[]]]]]; reflexivity.
    + rewrite !not_elem_of_cons in Hin. destruct Hin as (H1 & H2 & H3 & H4 & _).
      destruct (String.eqb_spec "claude-telemetry.jsonl" name); [congruence|].
      destruct (String.eqb_spec "traces.jsonl" name); [congruence|].
      destruct (String.eqb_spec "logs.jsonl" name); [congruence|].
      destruct (String.eqb_spec "metrics.jsonl" name); [congruence|].
      destruct (ends_with ".jsonl" name); reflexivity.
  - rewrite !elem_of_cons, elem_of_nil.
    intros [->|[->|[->|[->|[]]]]]; reflexivity.
Qed.

(** X13. [load_telemetry_data] loads a file once for every pattern that
    matches its name.  Every name ending in [.jsonl] matches ["*.jsonl"],
    and the four names [claude-telemetry.jsonl], [traces.jsonl],
    [logs.jsonl] and [metrics.jsonl] also match their own pattern: such a
    file is loaded twice and each of its events is added twice.  No other
    file is loaded. *)
Theorem files_load_once_per_pattern
    (B : Builtins) (dir_name : string) (entries : list DirEntry)
    (events : list TelemetryEvent) (name : string) :
  let out := load_telemetry_data B dir_name entries events in
  out.1
  = events
    ++ concat
         ((λ p, concat
                  (entry_events B dir_name <$>
                     List.filter (λ e, glob_match p (entry_name e)) entries))
            <$> patterns)
  ∧ length out.1
    = (length events
       + sum_nat
           ((λ e, multiplicity (entry_name e)
                  * length (entry_events B dir_name e)) <$> entries))%nat
  ∧ out.2
    = sum_nat
        ((λ e, multiplicity (entry_name e) * (if is_file e then 1 else 0))
           <$> entries)%nat
  ∧ multiplicity name
    = (if bool_decide
            (name ∈ ["claude-telemetry.jsonl"; "traces.jsonl"; "logs.jsonl";
                     "metrics.jsonl"]) then 2
       else if ends_with ".jsonl" name then 1 else 0)%nat.
Proof.
  cbn zeta. unfold load_telemetry_data. rewrite load_patterns_spec. cbn [fst snd].
  split; [done|]. split; [|split].
  - unfold multiplicity.
    rewrite length_app. f_equal. rewrite length_concat_sum.
    rewrite <- list_fmap_compose.
    rewrite <- (sum_by_entry (λ e, length (entry_events B dir_name e))
                  entry_name entries patterns).
    f_equal. apply list_fmap_ext. intros _ p _. cbn.
    by rewrite length_concat_sum, <- list_fmap_compose.
  - unfold multiplicity. cbn [Nat.add].
    rewrite <- (sum_by_entry (λ e, if is_file e then 1 else 0)%nat
                  entry_name entries patterns).
    f_equal. apply list_fmap_ext. intros _ p _. cbn.
    by rewrite length_filter_sum.
  - destruct (multiplicity_jsonl name) as [-> Hends].
    case_bool_decide as Hin; [by rewrite (Hends Hin)|].
    destruct (ends_with ".jsonl" name); reflexivity.
Qed.

(** A directory with one file named [traces.jsonl]: its two events are
    added twice. *)
Example traces_file_is_loaded_twice :
  let out :=
    load_telemetry_data SampleRecords.reader "telemetry-data"
      [{| entry_name := "traces.jsonl";
          entry_kind_of := Regular ["{}"; "{}"] |}] [] in
  length out.1 = 4%nat ∧ out.2 = 2%nat.
Proof. vm_compute. done. Qed.

(** ** Records without a trace id *)










(** ** OpenTelemetry attribute lists *)





(** ** The parsers of [analyzer.py] and of the script *)

Lemma foldM_app {A B} (f : A → B → result A) l1 l2 : ∀ a,
  foldM f a (l1 ++ l2) = bind (foldM f a l1) (λ a', foldM f a' l2).
Proof.
  induction l1 as [|x l1 IH]; intros a; [done|].
  cbn [app foldM]. destruct (f a x) as [a'|e]; cbn [bind]; [apply IH|done].
Qed.

Lemma foldM_raises_at {A B} (f : A → B → result A) x l1 l2 a :
  (∀ a', is_ok (f a' x) = false) →
  is_ok (foldM f a (l1 ++ x :: l2)) = false.
Proof.
  intros Hx. rewrite foldM_app.
  destruct (foldM f a l1) as [a'|e]; cbn [bind foldM]; [|done].
  specialize (Hx a'). by destruct (f a' x).
Qed.

Lemma foldM_raises_elem {A B} (f : A → B → result A) x l a :
  x ∈ l →
  (∀ a', is_ok (f a' x) = false) →
  is_ok (foldM f a l) = false.
Proof.
  intros (l1 & l2 & ->)%list_elem_of_split Hx. by apply foldM_raises_at.
Qed.

Lemma legacy_scope_raises B events scope_log records record :
  dict_get "logRecords" scope_log = Some (JList records) →
  record ∈ records →
  is_ok (Legacy.parse_log_record B record) = false →
  is_ok (Legacy.unwrap_scope B events (JDict scope_log)) = false.
Proof.
  intros Hrecords Hrecord Hraise. unfold Legacy.unwrap_scope.
  cbn [py_get bind]. rewrite Hrecords. cbn [default py_iter bind].
  apply (foldM_raises_elem _ record); [done|]. intros evs.
  by destruct (Legacy.parse_log_record B record).
Qed.

Lemma legacy_export_raises B st line data record :
  PyStr.strip line ≠ "" →
  json_loads B (PyStr.strip line) = Some data →
  holds_record data record →
  is_ok (Legacy.parse_log_record B record) = false →
  is_ok (Legacy.parse_line B st line) = false.
Proof.
  intros Hline Hdata
    (items & logs & resource_log & scopes & scope_log & records & ->
     & Hlogs & Hlog & Hscopes & Hscope & Hrecords & Hrecord) Hraise.
  unfold Legacy.parse_line. cbn zeta.
  destruct (String.eqb_spec (PyStr.strip line) ""); [done|].
  rewrite Hdata. cbn [py_in py_item bind]. rewrite Hlogs.
  cbn [is_Some bool_decide]. rewrite bool_decide_eq_true_2 by eauto.
  cbn [py_iter bind].
  destruct (foldM (Legacy.unwrap_resource B) st.1 logs) as [evs|] eqn:Hfold;
    [|done].
  assert (Hfalse : is_ok (foldM (Legacy.unwrap_resource B) st.1 logs) = false).
  { apply (foldM_raises_elem _ (JDict resource_log)); [done|]. intros evs'.
    unfold Legacy.unwrap_resource. cbn [py_get bind]. rewrite Hscopes.
    cbn [default py_iter bind].
    apply (foldM_raises_elem _ (JDict scope_log)); [done|]. intros evs''.
    by eapply legacy_scope_raises. }
  by rewrite Hfold in Hfalse.
Qed.

Lemma legacy_keyless_raises B items entries entry :
  dict_get "attributes" items = Some (JList entries) →
  entry ∈ entries →
  is_ok (py_item entry "key") = false →
  is_ok (Legacy.parse_log_record B (JDict items)) = false.
Proof.
  intros Hattrs Hentry Hkey. unfold Legacy.parse_log_record.
  cbn [py_get bind]. rewrite Hattrs. cbn [default from_option id].
  destruct entries as [|e0 entries]; [by apply elem_of_nil in Hentry|].
  cbn [truthy negb py_iter bind].
  destruct (foldM (Legacy.add_attr B) [] (e0 :: entries)) as [attrs|] eqn:Hfold;
    [|done].
  assert (Hfalse :
            is_ok (foldM (Legacy.add_attr B) [] (e0 :: entries)) = false).
  { apply (foldM_raises_elem _ entry); [done|]. intros attrs'.
    unfold Legacy.add_attr. by destruct (py_item entry "key"). }
  by rewrite Hfold in Hfalse.
Qed.

(** X17. [parse_jsonl] of [analyzer.py] is all or nothing.  Only a line
    that is not JSON is caught and skipped; a line that is JSON but holds a
    number, a boolean or [null], or an export one of whose log records
    makes [parse_log_record] raise, makes the whole call raise, whatever
    the other lines hold, and no event is returned.  A log record raises as
    soon as one entry of its attribute list is no dictionary or has no
    [key]; the unified analyzer skips such an entry. *)
Theorem legacy_parse_is_all_or_nothing
    (B : Builtins) (pre post : list string) (line : string) (data : json) :
  PyStr.strip line ≠ "" →
  json_loads B (PyStr.strip line) = Some data →
  scalar data = true
  ∨ (∃ record,
       holds_record data record
       ∧ is_ok (Legacy.parse_log_record B record) = false) →
  is_ok (Legacy.parse_jsonl B (pre ++ line :: post)) = false
  ∧ (∀ items entries entry,
       dict_get "attributes" items = Some (JList entries) →
       entry ∈ entries →
       is_ok (py_item entry "key") = false →
       is_ok (Legacy.parse_log_record B (JDict items)) = false
       ∧ ∀ attributes, add_attr attributes entry = Ok attributes).
Proof.
  intros Hline Hdata Haborts. split.
  - unfold Legacy.parse_jsonl.
    destruct (foldM (Legacy.parse_line B) ([], []) (pre ++ line :: post))
      as [st|] eqn:Hfold; [|done].
    assert (Hfalse :
              is_ok (foldM (Legacy.parse_line B) ([], [])
                       (pre ++ line :: post)) = false).
    { apply foldM_raises_at. intros st'.
      destruct Haborts as [Hscalar|(record & Hholds & Hraise)].
      - unfold Legacy.parse_line. cbn zeta.
        destruct (String.eqb_spec (PyStr.strip line) ""); [done|].
        rewrite Hdata. by destruct data.
      - by eapply legacy_export_raises. }
    by rewrite Hfold in Hfalse.
  - intros items entries entry Hattrs Hentry Hkey.
    split; [by eapply legacy_keyless_raises|].
    intros attributes. unfold add_attr.
    destruct entry as [| | | | | |eitems]; try done.
    cbn in Hkey. by destruct (dict_get "key" eitems).
Qed.

Lemma legacy_parse_is_all_or_nothing_witness :
  is_ok (Legacy.parse_jsonl SampleLegacy.reader ["event"; "7"; "event"])
  = false
  ∧ is_ok (Legacy.parse_jsonl SampleLegacy.reader ["event"; "export"])
    = false.
Proof.
  split.
  - apply (legacy_parse_is_all_or_nothing SampleLegacy.reader
             ["event"] ["event"] "7" (JInt 7)); [done|done|by left].
  - apply (legacy_parse_is_all_or_nothing SampleLegacy.reader
             ["event"] [] "export" SampleLegacy.export); [done|done|].
    right. exists SampleLegacy.keyless_record. split.
    + unfold SampleLegacy.export. unfold holds_record.
      eexists _, _, _, _, _, _.
      split; [reflexivity|].
      split; [reflexivity|].
      split; [apply list_elem_of_here|].
      split; [reflexivity|].
      split; [apply list_elem_of_here|].
      split; [reflexivity|apply list_elem_of_here].
    + reflexivity.
Defined.









(** ** The statistics of an analysed flow *)

(** The statistics fields two flows share. *)
Lemma stats_turn_same_statistics f g t :
  total_tokens f = total_tokens g → total_cost f = total_cost g →
  tools_used f = tools_used g → error_count f = error_count g →
  match stats_turn f t, stats_turn g t with
  | Ok f', Ok g' =>
      total_tokens f' = total_tokens g' ∧ total_cost f' = total_cost g'
      ∧ tools_used f' = tools_used g' ∧ error_count f' = error_count g'
  | Raise e, Raise e' => e = e'
  | _, _ => False
  end.
Proof.
  intros Htokens Hcost Htools Herrors. unfold stats_turn.
  rewrite Htokens, Hcost, Htools, Herrors.
  destruct (int_values (token_usage t)) as [ints|]; cbn [bind]; [|done].
  destruct (foldM count_tool (tools_used g) (tool_calls t)) as [used|];
    cbn [bind]; [|done].
  destruct (add_cost "input" rate_input t (total_cost g)) as [c1|];
    cbn [bind]; [|done].
  destruct (add_cost "output" rate_output t c1) as [c2|]; cbn [bind]; done.
Qed.

Lemma stats_fold_same_statistics ts : ∀ f g,
  total_tokens f = total_tokens g → total_cost f = total_cost g →
  tools_used f = tools_used g → error_count f = error_count g →
  match foldM stats_turn f ts, foldM stats_turn g ts with
  | Ok f', Ok g' =>
      total_tokens f' = total_tokens g' ∧ total_cost f' = total_cost g'
      ∧ tools_used f' = tools_used g' ∧ error_count f' = error_count g'
  | Raise e, Raise e' => e = e'
  | _, _ => False
  end.
Proof.
  induction ts as [|t ts IH]; intros f g H1 H2 H3 H4; cbn [foldM]; [done|].
  pose proof (stats_turn_same_statistics f g t H1 H2 H3 H4) as Hstep.
  destruct (stats_turn f t) as [f1|], (stats_turn g t) as [g1|];
    cbn [bind]; try done.
  destruct Hstep as (? & ? & ? & ?). by apply IH.
Qed.

Lemma reset_statistics_header f g :
  flow_key f = flow_key g → user_name f = user_name g →
  user_email f = user_email g → start_time f = start_time g →
  end_time f = end_time g → turns f = turns g →
  reset_statistics f = reset_statistics g.
Proof.
  unfold flow_key, reset_statistics. intros [= -> ->] -> -> -> -> ->. done.
Qed.

Lemma statistics_fixed flow stats :
  _calculate_flow_statistics flow = Ok stats →
  _calculate_flow_statistics stats = Ok stats.
Proof.
  intros Hstats. pose proof Hstats as Hfields.
  apply flow_statistics_fields in Hfields as (Hk & Hn & He & Hs & Hend & Ht & _).
  unfold _calculate_flow_statistics in *.
  by rewrite (reset_statistics_header stats flow Hk Hn He Hs Hend Ht), Ht.
Qed.

(** X20. [_calculate_flow_statistics] starts from zero and reads the turns
    only: the totals it leaves do not depend on the statistics or on the
    header the flow had before (two flows with the same turns get the same
    totals, or raise the same exception), and running it again on its own
    result changes nothing. *)
Theorem statistics_depend_on_turns_only
    (flow other : ConversationFlow) :
  turns other = turns flow →
  match _calculate_flow_statistics flow, _calculate_flow_statistics other with
  | Ok stats, Ok stats' =>
      total_tokens stats' = total_tokens stats
      ∧ total_cost stats' = total_cost stats
      ∧ tools_used stats' = tools_used stats
      ∧ error_count stats' = error_count stats
      ∧ _calculate_flow_statistics stats = Ok stats
  | Raise e, Raise e' => e = e'
  | _, _ => False
  end.
Proof.
  intros Hturns.
  pose proof (stats_fold_same_statistics (turns flow)
                (reset_statistics flow) (reset_statistics other)
                eq_refl eq_refl eq_refl eq_refl) as Hsame.
  set (r := _calculate_flow_statistics flow).
  set (r' := _calculate_flow_statistics other).
  assert (Hr : r = foldM stats_turn (reset_statistics flow) (turns flow))
    by done.
  assert (Hr' : r' = foldM stats_turn (reset_statistics other) (turns flow))
    by (unfold r', _calculate_flow_statistics; by rewrite Hturns).
  clearbody r r'. subst r r'.
  destruct (foldM stats_turn (reset_statistics flow) (turns flow))
    as [stats|] eqn:Hstats;
    destruct (foldM stats_turn (reset_statistics other) (turns flow))
      as [stats'|]; try done.
  destruct Hsame as (? & ? & ? & ?). repeat split; try congruence.
  by apply (statistics_fixed flow).
Qed.

Lemma statistics_depend_on_turns_only_witness :
  ∃ stats,
    _calculate_flow_statistics
      (_process_conversation_turns Sample.flow
         [Sample.prompt_A; Sample.tool_call_X; Sample.tokens_1000])
    = Ok stats
    ∧ _calculate_flow_statistics stats = Ok stats.
Proof.
  pose proof (statistics_depend_on_turns_only
                (_process_conversation_turns Sample.flow
                   [Sample.prompt_A; Sample.tool_call_X; Sample.tokens_1000])
                (_process_conversation_turns Sample.flow
                   [Sample.prompt_A; Sample.tool_call_X; Sample.tokens_1000])
                eq_refl) as H.
  destruct (_calculate_flow_statistics
              (_process_conversation_turns Sample.flow
                 [Sample.prompt_A; Sample.tool_call_X; Sample.tokens_1000]))
    as [stats|] eqn:Hstats; [|by vm_compute in Hstats].
  exists stats. destruct H as (_ & _ & _ & _ & Hfixed). by split.
Defined.

Lemma analyze_sessions_fixed ss : ∀ flows0 flows,
  Forall (λ f, _calculate_flow_statistics f = Ok f) flows0 →
  foldM analyze_session flows0 ss = Ok flows →
  Forall (λ f, _calculate_flow_statistics f = Ok f) flows.
Proof.
  induction ss as [|[[a k] evs] ss IH]; intros flows0 flows Hfixed.
  - by intros [= <-].
  - cbn [foldM].
    destruct (analyze_session flows0 (a, k, evs)) as [flows1|] eqn:H1;
      cbn [bind]; [|done].
    apply IH. unfold analyze_session in H1.
    destruct evs as [|first rest]; [by injection H1 as <-|].
    match type of H1 with
    | bind ?r _ = _ => destruct r as [stats|] eqn:Hstats
    end; cbn [bind] in H1; [|done].
    injection H1 as <-. apply Forall_app. split; [done|].
    constructor; [|done]. by eapply statistics_fixed.
Qed.

Lemma stats_fold_token_keys ts key : ∀ f f',
  foldM stats_turn f ts = Ok f' →
  is_Some (total_tokens f' !! key) →
  is_Some (total_tokens f !! key)
  ∨ ∃ t, t ∈ ts ∧ is_Some (token_usage t !! key).
Proof.
  induction ts as [|t ts IH]; intros f f'; cbn [foldM].
  - intros [= <-]. by left.
  - destruct (stats_turn f t) as [f1|] eqn:Hstep; cbn [bind]; [|done].
    intros Hfold Hsome.
    destruct (IH _ _ Hfold Hsome) as [Hf1|(t' & Ht' & Hkey)].
    + unfold stats_turn in Hstep.
      destruct (int_values (token_usage t)) as [ints|] eqn:Hints;
        cbn [bind] in Hstep; [|done].
      destruct (foldM count_tool (tools_used f) (tool_calls t)) as [used|];
        cbn [bind] in Hstep; [|done].
      destruct (add_cost "input" rate_input t (total_cost f)) as [c1|];
        cbn [bind] in Hstep; [|done].
      destruct (add_cost "output" rate_output t c1) as [c2|];
        cbn [bind] in Hstep; [|done].
      injection Hstep as <-. cbn [total_tokens] in Hf1.
      unfold add_tokens in Hf1. rewrite lookup_union_with in Hf1.
      destruct (total_tokens f !! key) as [n|] eqn:Hn; [left; eauto|].
      right. exists t. split; [apply list_elem_of_here|].
      unfold int_values in Hints. case_decide; [|done].
      injection Hints as <-. rewrite lookup_omap in Hf1.
      destruct (token_usage t !! key); [eauto|].
      cbn in Hf1. by destruct Hf1.
    + right. exists t'. split; [by apply list_elem_of_further|done].
Qed.

Lemma update_token_usage_keys t e key :
  is_Some (token_usage (_update_token_usage t e) !! key) →
  is_Some (token_usage t !! key)
  ∨ ∃ src, (src, key) ∈ token_keys ∧ is_Some (attributes e !! src).
Proof.
  unfold _update_token_usage, copy_tokens, token_keys. cbn [token_usage set_token_usage].
  destruct (attributes e !! "tokens.total") eqn:Htotal.
  { rewrite lookup_insert_is_Some. intros [<-|[_ H]].
    - right. exists "tokens.total". rewrite Htotal, !elem_of_cons. eauto 10.
    - revert H. destruct (attributes e !! "tokens.output") eqn:Houtput.
      + rewrite lookup_insert_is_Some. intros [<-|[_ H]].
        * right. exists "tokens.output". rewrite Houtput, !elem_of_cons.
          eauto 10.
        * revert H. destruct (attributes e !! "tokens.input") eqn:Hinput;
            [|by left].
          rewrite lookup_insert_is_Some. intros [<-|[_ H]]; [|by left].
          right. exists "tokens.input". rewrite Hinput, !elem_of_cons.
          eauto 10.
      + destruct (attributes e !! "tokens.input") eqn:Hinput; [|by left].
        rewrite lookup_insert_is_Some. intros [<-|[_ H]]; [|by left].
        right. exists "tokens.input". rewrite Hinput, !elem_of_cons.
        eauto 10. }
  destruct (attributes e !! "tokens.output") eqn:Houtput.
  { rewrite lookup_insert_is_Some. intros [<-|[_ H]].
    - right. exists "tokens.output". rewrite Houtput, !elem_of_cons. eauto 10.
    - revert H. destruct (attributes e !! "tokens.input") eqn:Hinput;
        [|by left].
      rewrite lookup_insert_is_Some. intros [<-|[_ H]]; [|by left].
      right. exists "tokens.input". rewrite Hinput, !elem_of_cons. eauto 10. }
  destruct (attributes e !! "tokens.input") eqn:Hinput; [|by left].
  rewrite lookup_insert_is_Some. intros [<-|[_ H]]; [|by left].
  right. exists "tokens.input". rewrite Hinput, !elem_of_cons. eauto 10.
Qed.

Lemma foldl_fold_event_keys body key : ∀ t,
  is_Some (token_usage (foldl fold_event t body) !! key) →
  is_Some (token_usage t !! key)
  ∨ ∃ src e, (src, key) ∈ token_keys ∧ e ∈ body
             ∧ is_Some (attributes e !! src).
Proof.
  induction body as [|e body IH]; intros t; cbn [foldl]; [by left|].
  intros [H|(src & e' & Hsrc & He' & Hattr)]%IH.
  - unfold fold_event in H.
    apply update_token_usage_keys in H as [H|(src & Hsrc & Hattr)].
    + rewrite token_usage_fold_into in H. by left.
    + right. exists src, e. split; [done|]. split; [apply list_elem_of_here|done].
  - right. exists src, e'. split; [done|].
    split; [by apply list_elem_of_further|done].
Qed.

Lemma until_prompt_elem_of events e :
  e ∈ until_prompt events → e ∈ events.
Proof.
  induction events as [|e0 events IH]; cbn [until_prompt]; [done|].
  destruct (_is_user_prompt e0); [by intros ?%elem_of_nil|].
  intros [->|H]%elem_of_cons.
  - apply list_elem_of_here.
  - by apply list_elem_of_further, IH.
Qed.

Lemma spec_turns_token_keys agent events key t : ∀ next,
  t ∈ spec_turns agent next events →
  is_Some (token_usage t !! key) →
  ∃ src e, (src, key) ∈ token_keys ∧ e ∈ events
           ∧ is_Some (attributes e !! src).
Proof.
  induction events as [|e0 events IH]; intros next; cbn [spec_turns].
  { by intros ?%elem_of_nil. }
  assert (Hrest : ∀ next',
            t ∈ spec_turns agent next' events →
            is_Some (token_usage t !! key) →
            ∃ src e, (src, key) ∈ token_keys ∧ e ∈ e0 :: events
                     ∧ is_Some (attributes e !! src)).
  { intros next' Ht Hkey.
    destruct (IH next' Ht Hkey) as (src & e & Hsrc & He & Hattr).
    exists src, e. split; [done|]. split; [by apply list_elem_of_further|done]. }
  destruct (_is_user_prompt e0); [|apply Hrest].
  intros [->|Ht]%elem_of_cons; [|by eapply Hrest].
  unfold spec_turn.
  intros [H|(src & e & Hsrc & He & Hattr)]%foldl_fold_event_keys.
  - apply update_token_usage_keys in H as [H|(src & Hsrc & Hattr)].
    + cbn in H. rewrite lookup_empty in H. by destruct H.
    + exists src, e0. split; [done|]. split; [apply list_elem_of_here|done].
  - exists src, e. split; [done|].
    split; [by apply list_elem_of_further, until_prompt_elem_of|done].
Qed.

(** X21. A flow's [total_tokens] has an entry only for what its events
    report: if the analysis leaves a total under a key, then the key is
    [input], [output] or [total] and some event of the flow's session
    carries the matching [tokens.*] attribute.  In particular [total] is
    never derived from [input] and [output]: a session none of whose events
    carries [tokens.total] has no [total] entry, which the report then shows
    as 0 tokens. *)
Theorem token_totals_come_from_events
    (events : list TelemetryEvent) (flows : list ConversationFlow)
    (f : ConversationFlow) :
  analyze_conversation_flow events [] = Ok flows →
  f ∈ flows →
  (∀ key,
     is_Some (total_tokens f !! key) →
     ∃ src e,
       (src, key) ∈ token_keys
       ∧ e ∈ events
       ∧ in_session (flow_agent_type f) (session_id f) e
       ∧ is_Some (attributes e !! src))
  ∧ ((∀ e, e ∈ events →
        in_session (flow_agent_type f) (session_id f) e →
        attributes e !! "tokens.total" = None) →
     default 0 (total_tokens f !! "total") = 0).
Proof.
  intros Hflows Hf.
  assert (Hkeys : ∀ key,
            is_Some (total_tokens f !! key) →
            ∃ src e,
              (src, key) ∈ token_keys
              ∧ e ∈ events
              ∧ in_session (flow_agent_type f) (session_id f) e
              ∧ is_Some (attributes e !! src)).
  { intros key Hkey.
    pose proof (analyze_sessions_fixed _ _ _ (Forall_nil_2 _) Hflows) as Hfixed.
    rewrite Forall_forall in Hfixed. specialize (Hfixed _ Hf).
    unfold _calculate_flow_statistics in Hfixed.
    destruct (stats_fold_token_keys _ key _ _ Hfixed Hkey)
      as [Hreset|(t & Ht & Htkey)].
    { cbn in Hreset. rewrite lookup_empty in Hreset. by destruct Hreset. }
    destruct (flow_session _ _ _ Hflows Hf) as (_ & _ & _ & _ & _ & Hturns & _).
    cbn [fst snd] in Hturns. rewrite Hturns in Ht.
    destruct (spec_turns_token_keys _ _ key t _ Ht Htkey)
      as (src & e & Hsrc & He & Hattr).
    exists src, e. split; [done|].
    rewrite sort_by_timestamp_perm in He.
    apply list_elem_of_filter in He as [Hin He]. done. }
  split; [exact Hkeys|].
  intros Hnone. destruct (total_tokens f !! "total") as [n|] eqn:Htotal; [|done].
  destruct (Hkeys "total") as (src & e & Hsrc & He & Hin & Hattr);
    [by rewrite Htotal|].
  unfold token_keys in Hsrc. rewrite !elem_of_cons, elem_of_nil in Hsrc.
  destruct Hsrc as [[=]|[[=]|[[= ->]|[]]]].
  rewrite (Hnone e He Hin) in Hattr. by destruct Hattr.
Qed.

Lemma token_totals_come_from_events_witness :
  ∃ flow,
    analyze_conversation_flow [Sample.prompt_A; Sample.tokens_1000] []
    = Ok [flow]
    ∧ total_tokens flow !! "input" = Some 1000
    ∧ default 0 (total_tokens flow !! "total") = 0.
Proof.
  pose (flows :=
          match analyze_conversation_flow
                  [Sample.prompt_A; Sample.tokens_1000] [] with
          | Ok flows => flows
          | Raise _ => []
          end).
  exists (default Sample.flow (head flows)).
  split; [by vm_compute|]. split; [by vm_compute|].
  apply (token_totals_come_from_events
           [Sample.prompt_A; Sample.tokens_1000] flows
           (default Sample.flow (head flows))).
  - by vm_compute.
  - apply list_elem_of_here.
  - intros e He _.
    repeat (apply elem_of_cons in He as [->|He]; [reflexivity|]).
    by apply elem_of_nil in He.
Defined.

(** ** The report summary *)







(** ** The statistics of the archive analyzer *)











Lemma archive_events B lines : ∀ st,
  (foldl (Archive.parse_line B) st lines).1
  = st.1 ++ omap (λ line, if PyStr.blank line then None else json_loads B line)
              lines.
Proof.
  induction lines as [|line lines IH]; intros st; cbn [foldl omap list_omap].
  - by rewrite app_nil_r.
  - rewrite IH. unfold Archive.parse_line.
    destruct (PyStr.blank line); [done|].
    destruct (json_loads B line) as [data|]; cbn [fst]; [|done].
    by rewrite <- app_assoc.
Qed.

(** X24. The archive analyzer's parser keeps every line that is JSON,
    whatever its value, and its statistics expect dictionaries: a line that
    holds a number, a string, a list, a boolean or [null] is returned by
    [parse_jsonl] among the events and makes [calculate_statistics] raise
    on them, whatever the other lines, the interactions and the sessions
    are. *)
Theorem scalar_line_breaks_statistics
    (B : Builtins) (lines : list string) (line : string) (data : json)
    (sessions : list (string * json)) (interactions : list json) :
  line ∈ lines →
  PyStr.blank line = false →
  json_loads B line = Some data →
  is_dict data = false →
  data ∈ (Archive.parse_jsonl B (Some lines)).1
  ∧ is_ok (ArchiveStatistics.calculate_statistics B sessions
             (Archive.parse_jsonl B (Some lines)).1 interactions) = false.
Proof.
  intros Hline Hblank Hdata Hdict.
  assert (Hin : data ∈ (Archive.parse_jsonl B (Some lines)).1).
  { cbn [Archive.parse_jsonl]. rewrite archive_events. cbn [fst app].
    apply list_elem_of_omap. exists line. split; [done|]. by rewrite Hblank. }
  split; [done|].
  unfold ArchiveStatistics.calculate_statistics.
  match goal with
  | |- is_ok (bind ?r _) = false =>
      assert (Hraise : is_ok r = false); [|by destruct r]
  end.
  apply (foldM_raises_elem _ data); [done|].
  intros stats. by destruct data.
Qed.

Lemma scalar_line_breaks_statistics_witness :
  length (Archive.parse_jsonl SampleLegacy.reader (Some ["event"; "7"])).1
  = 2%nat
  ∧ is_ok (ArchiveStatistics.calculate_statistics SampleLegacy.reader []
             (Archive.parse_jsonl SampleLegacy.reader (Some ["event"; "7"])).1
             []) = false.
Proof.
  split; [reflexivity|].
  apply (scalar_line_breaks_statistics SampleLegacy.reader ["event"; "7"]
           "7" (JInt 7) [] []); try reflexivity.
  apply list_elem_of_further, list_elem_of_here.
Defined.

(** ** Repeated analysis *)

Lemma analyze_sessions_append ss : ∀ flows0,
  foldM analyze_session flows0 ss
  = bind (foldM analyze_session [] ss) (λ new, Ok (flows0 ++ new)).
Proof.
  induction ss as [|[[a k] evs] ss IH]; intros flows0.
  - cbn. by rewrite app_nil_r.
  - cbn [foldM]. unfold analyze_session at 1 3.
    destruct evs as [|first rest].
    + cbn [bind]. apply IH.
    + match goal with
      | |- bind (bind ?r _) _ = _ => destruct r as [stats|]
      end; cbn [bind]; [|done].
      rewrite (IH (flows0 ++ [stats])), (IH ([] ++ [stats])).
      destruct (foldM analyze_session [] ss) as [new|]; cbn [bind]; [|done].
      by rewrite <- app_assoc.
Qed.

(** X25. [analyze_conversation_flow] appends to the flows the analyzer
    already holds and never clears them: the flows held before come first,
    unchanged, followed by the flows of the events, which do not depend on
    what was held.  Analysing the same events a second time therefore
    yields every flow twice. *)
Theorem analysis_accumulates
    (events : list TelemetryEvent) (held new : list ConversationFlow) :
  analyze_conversation_flow events [] = Ok new →
  analyze_conversation_flow events held = Ok (held ++ new)
  ∧ analyze_conversation_flow events new = Ok (new ++ new)
  ∧ (∀ flows,
       analyze_conversation_flow events held = Ok flows →
       drop (length held) flows = new).
Proof.
  unfold analyze_conversation_flow. intros Hnew.
  rewrite (analyze_sessions_append _ held), (analyze_sessions_append _ new).
  rewrite Hnew. cbn [bind]. split; [done|]. split; [done|].
  intros flows [= <-]. by rewrite drop_app_length.
Qed.

Lemma analysis_accumulates_witness :
  ∃ flow,
    analyze_conversation_flow [Sample.prompt_A; Sample.tokens_1000] []
    = Ok [flow]
    ∧ analyze_conversation_flow [Sample.prompt_A; Sample.tokens_1000] [flow]
      = Ok [flow; flow].
Proof.
  pose (flows :=
          match analyze_conversation_flow
                  [Sample.prompt_A; Sample.tokens_1000] [] with
          | Ok flows => flows
          | Raise _ => []
          end).
  exists (default Sample.flow (head flows)).
  assert (Hnew : analyze_conversation_flow
                   [Sample.prompt_A; Sample.tokens_1000] []
                 = Ok [default Sample.flow (head flows)]) by by vm_compute.
  split; [exact Hnew|].
  destruct (analysis_accumulates [Sample.prompt_A; Sample.tokens_1000]
              [default Sample.flow (head flows)]
              [default Sample.flow (head flows)] Hnew) as (Htwice & _).
  exact Htwice.
Defined.

(** ** The event analysis of [analyzer.py] *)

Lemma dict_get_set k k' v items :
  dict_get k (dict_set k' v items)
  = if String.eqb k k' then Some v else dict_get k items.
Proof.
  induction items as [|[k0 v0] items IH]; cbn [dict_set dict_get].
  - by destruct (String.eqb k k').
  - destruct (String.eqb_spec k' k0) as [->|Hne]; cbn [dict_get].
    + by destruct (String.eqb k k0).
    + rewrite IH. destruct (String.eqb_spec k k0) as [->|Hne'].
      * destruct (String.eqb_spec k0 k'); [congruence|done].
      * done.
Qed.

Section LegacyAnalysisFacts.

Variable parse : string → option Q.

Lemma legacy_sort_key event :
  is_dict event = true →
  LegacyAnalysis.get_timestamp_for_sorting parse event
  = Ok (LegacyAnalysis.sort_key parse event).
Proof.
  destruct event as [| | | | | |items]; try done. intros _.
  unfold LegacyAnalysis.sort_key, LegacyAnalysis.get_timestamp_for_sorting.
  cbn [py_get bind]. by destruct (default (JInt 0) (dict_get "timestamp" items)).
Qed.

Lemma legacy_keys events : ∀ keyed,
  forallb is_dict events = true →
  foldM (LegacyAnalysis.with_key parse) keyed events
  = Ok (keyed ++ ((λ e, (LegacyAnalysis.sort_key parse e, e)) <$> events)).
Proof.
  induction events as [|event events IH]; intros keyed Hall.
  - cbn. by rewrite app_nil_r.
  - cbn [forallb] in Hall. apply andb_prop in Hall as [Hevent Hall].
    cbn [foldM]. unfold LegacyAnalysis.with_key at 1.
    rewrite (legacy_sort_key event Hevent). cbn [bind].
    rewrite (IH _ Hall), fmap_cons, <- app_assoc. done.
Qed.

Lemma insert_by_key_perm x l : LegacyAnalysis.insert_by_key x l ≡ₚ x :: l.
Proof.
  induction l as [|y l IH]; cbn; [done|].
  destruct (Qle_bool x.1 y.1); [done|].
  rewrite IH. apply Permutation_swap.
Qed.

Lemma sort_by_key_perm l : foldr LegacyAnalysis.insert_by_key [] l ≡ₚ l.
Proof.
  induction l as [|x l IH]; cbn; [done|].
  by rewrite insert_by_key_perm, IH.
Qed.

Lemma insert_by_key_sorted x l :
  StronglySorted (λ a b : Q * json, (a.1 <= b.1)%Q) l →
  StronglySorted (λ a b : Q * json, (a.1 <= b.1)%Q)
    (LegacyAnalysis.insert_by_key x l).
Proof.
  induction l as [|y l IH]; cbn; intros Hl.
  - repeat constructor.
  - apply StronglySorted_cons in Hl as [Hy Hl].
    destruct (Qle_bool x.1 y.1) eqn:Hle.
    + apply Qle_bool_iff in Hle.
      apply StronglySorted_cons. split.
      * apply Forall_cons. split; [done|].
        eapply Forall_impl; [exact Hy|]. cbn. intros z Hz.
        by eapply Qle_trans.
      * by apply StronglySorted_cons.
    + apply StronglySorted_cons. split; [|by apply IH].
      rewrite insert_by_key_perm. apply Forall_cons. split; [|done].
      apply Qlt_le_weak, Qnot_le_lt. intros H%Qle_bool_iff. congruence.
Qed.

Lemma sort_by_key_sorted l :
  StronglySorted (λ a b : Q * json, (a.1 <= b.1)%Q)
    (foldr LegacyAnalysis.insert_by_key [] l).
Proof.
  induction l as [|x l IH]; cbn; [constructor|by apply insert_by_key_sorted].
Qed.

Lemma insert_by_key_stable x l k :
  List.filter (λ p : Q * json, Qeq_bool p.1 k)
    (LegacyAnalysis.insert_by_key x l)
  = List.filter (λ p : Q * json, Qeq_bool p.1 k) (x :: l).
Proof.
  induction l as [|y l IH]; cbn [LegacyAnalysis.insert_by_key]; [done|].
  destruct (Qle_bool x.1 y.1) eqn:Hle; [done|].
  cbn [List.filter] in *. rewrite IH.
  destruct (Qeq_bool x.1 k) eqn:Hx, (Qeq_bool y.1 k) eqn:Hy; try done.
  apply Qeq_bool_iff in Hx, Hy.
  assert (Qle_bool x.1 y.1 = true); [|congruence].
  apply Qle_bool_iff. rewrite Hx, Hy. apply Qle_refl.
Qed.

Lemma sort_by_key_stable l k :
  List.filter (λ p : Q * json, Qeq_bool p.1 k)
    (foldr LegacyAnalysis.insert_by_key [] l)
  = List.filter (λ p : Q * json, Qeq_bool p.1 k) l.
Proof.
  induction l as [|x l IH]; [done|].
  cbn [foldr]. rewrite insert_by_key_stable. cbn [List.filter].
  by rewrite IH.
Qed.

Lemma copy_attr_dict src dst attrs info :
  LegacyAnalysis.copy_attr src dst (JDict attrs) info
  = Ok (match dict_get src attrs with
        | Some v => dict_set dst v info
        | None => info
        end).
Proof.
  unfold LegacyAnalysis.copy_attr. cbn [py_in py_item bind].
  destruct (dict_get src attrs) as [v|].
  - by rewrite bool_decide_eq_true_2 by eauto.
  - by rewrite bool_decide_eq_false_2 by (by intros [? ?]).
Qed.

Lemma copy_attrs_dict keys attrs : ∀ info,
  NoDup keys.*2 →
  ∃ info',
    foldM (λ info p, LegacyAnalysis.copy_attr p.1 p.2 (JDict attrs) info)
      info keys = Ok info'
    ∧ (∀ src dst, (src, dst) ∈ keys →
         dict_get dst info'
         = match dict_get src attrs with
           | Some v => Some v
           | None => dict_get dst info
           end)
    ∧ (∀ dst, dst ∉ keys.*2 → dict_get dst info' = dict_get dst info).
Proof.
  induction keys as [|[src0 dst0] keys IH]; intros info Hnodup.
  - exists info. split; [done|]. split; [|done].
    by intros src dst ?%elem_of_nil.
  - rewrite fmap_cons in Hnodup. cbn [snd] in Hnodup.
    apply NoDup_cons in Hnodup as [Hnotin Hnodup].
    cbn [foldM fst snd]. rewrite copy_attr_dict. cbn [bind].
    destruct (IH (match dict_get src0 attrs with
                  | Some v => dict_set dst0 v info
                  | None => info
                  end) Hnodup) as (info' & -> & Hin & Hout).
    exists info'. split; [done|]. split.
    + intros src dst [[= -> ->]|Hrest]%elem_of_cons.
      * rewrite (Hout dst0 Hnotin).
        destruct (dict_get src0 attrs) as [v|]; [|done].
        by rewrite dict_get_set, String.eqb_refl.
      * rewrite (Hin src dst Hrest).
        destruct (dict_get src attrs) as [v|]; [done|].
        destruct (dict_get src0 attrs) as [v0|]; [|done].
        rewrite dict_get_set.
        destruct (String.eqb_spec dst dst0) as [->|]; [|done].
        exfalso. apply Hnotin. apply list_elem_of_fmap.
        by exists (src, dst0).
    + intros dst Hdst. rewrite fmap_cons, not_elem_of_cons in Hdst.
      cbn [snd] in Hdst. destruct Hdst as [Hne Hdst].
      rewrite (Hout dst Hdst).
      destruct (dict_get src0 attrs) as [v0|]; [|done].
      rewrite dict_get_set. by destruct (String.eqb_spec dst dst0).
Qed.

Lemma legacy_collect_fold events : ∀ st,
  forallb legacy_event events = true →
  ∃ st',
    foldM LegacyAnalysis.collect st events = Ok st'
    ∧ (∀ src dst, (src, dst) ∈ LegacyAnalysis.user_keys →
         dict_get dst st'.2
         = match last (omap (legacy_attr src) events) with
           | Some v => Some v
           | None => dict_get dst st.2
           end)
    ∧ (∀ src dst, (src, dst) ∈ LegacyAnalysis.session_keys →
         dict_get dst st'.1
         = match last (omap (legacy_attr src) events) with
           | Some v => Some v
           | None => dict_get dst st.1
           end).
Proof.
  induction events as [|event events IH]; intros st Hall.
  - exists st. by split.
  - cbn [forallb] in Hall. apply andb_prop in Hall as [Hevent Hall].
    unfold legacy_event in Hevent.
    destruct event as [| | | | | |items]; try done.
    apply andb_prop in Hevent as [_ Hattrs].
    destruct (default (JDict []) (dict_get "attributes" items))
      as [| | | | | |attrs] eqn:Hdict; try done.
    assert (Hnodup_user : NoDup LegacyAnalysis.user_keys.*2)
      by (apply (bool_decide_unpack _); by vm_compute).
    assert (Hnodup_session : NoDup LegacyAnalysis.session_keys.*2)
      by (apply (bool_decide_unpack _); by vm_compute).
    destruct (copy_attrs_dict _ attrs st.2 Hnodup_user)
      as (user & Huser & Huser_in & _).
    destruct (copy_attrs_dict _ attrs st.1 Hnodup_session)
      as (session & Hsession & Hsession_in & _).
    cbn [foldM]. unfold LegacyAnalysis.collect at 1.
    cbn [py_get bind]. rewrite Hdict, Huser. cbn [bind].
    rewrite Hsession. cbn [bind].
    destruct (IH (session, user) Hall) as (st' & -> & Hu & Hs).
    exists st'. split; [done|].
    assert (Hlast : ∀ src (fallback : option json),
              match last (omap (legacy_attr src) (JDict items :: events)) with
              | Some v => Some v
              | None => fallback
              end
              = match last (omap (legacy_attr src) events) with
                | Some v => Some v
                | None =>
                    match dict_get src attrs with
                    | Some v => Some v
                    | None => fallback
                    end
                end).
    { intros src fallback. cbn [omap list_omap].
      fold (omap (legacy_attr src) events).
      unfold legacy_attr at 1. rewrite Hdict.
      destruct (dict_get src attrs) as [v|]; [|done].
      rewrite last_cons. by destruct (last (omap (legacy_attr src) events)). }
    split.
    + intros src dst Hkey. rewrite (Hu src dst Hkey), Hlast. cbn [snd].
      by rewrite (Huser_in src dst Hkey).
    + intros src dst Hkey. rewrite (Hs src dst Hkey), Hlast. cbn [fst].
      by rewrite (Hsession_in src dst Hkey).
Qed.

End LegacyAnalysisFacts.

Section LegacyAnalysisSort.

Variable parse : string → option Q.

Lemma keyed_sorted (l : list (Q * json)) :
  StronglySorted (λ a b : Q * json, (a.1 <= b.1)%Q) l →
  Forall (λ p, p.1 = LegacyAnalysis.sort_key parse p.2) l →
  StronglySorted
    (λ a b, (LegacyAnalysis.sort_key parse a
             <= LegacyAnalysis.sort_key parse b)%Q) l.*2.
Proof.
  induction 1 as [|p l Hl IH Hp]; intros Hkeys; [constructor|].
  apply Forall_cons in Hkeys as [Hkey Hkeys].
  rewrite fmap_cons. constructor; [by apply IH|].
  apply Forall_fmap. rewrite Forall_forall in Hp, Hkeys |- *.
  intros q Hq. cbn. rewrite <- Hkey, <- (Hkeys q Hq). by apply Hp.
Qed.

Lemma keyed_filter (l : list (Q * json)) k :
  Forall (λ p, p.1 = LegacyAnalysis.sort_key parse p.2) l →
  List.filter (λ e, Qeq_bool (LegacyAnalysis.sort_key parse e) k) l.*2
  = (List.filter (λ p : Q * json, Qeq_bool p.1 k) l).*2.
Proof.
  induction 1 as [|p l Hp Hl IH]; [done|].
  rewrite fmap_cons. cbn [List.filter]. rewrite <- Hp, IH.
  by destruct (Qeq_bool p.1 k).
Qed.

Lemma legacy_group_fold events :
  forallb legacy_event events = true →
  foldM LegacyAnalysis.group_event tt events = Ok tt.
Proof.
  induction events as [|event events IH]; [done|].
  cbn [forallb]. intros [Hevent Hall]%andb_prop. cbn [foldM].
  unfold legacy_event in Hevent.
  destruct event as [| | | | | |items]; try done.
  apply andb_prop in Hevent as [Hname _].
  unfold LegacyAnalysis.group_event at 1. cbn [py_get bind].
  rewrite Hname. by apply IH.
Qed.

Lemma legacy_sort events :
  forallb legacy_event events = true →
  ∃ sorted,
    LegacyAnalysis.sort_events parse events = Ok sorted
    ∧ sorted ≡ₚ events
    ∧ StronglySorted
        (λ a b, (LegacyAnalysis.sort_key parse a
                 <= LegacyAnalysis.sort_key parse b)%Q) sorted
    ∧ ∀ k,
        List.filter (λ e, Qeq_bool (LegacyAnalysis.sort_key parse e) k) sorted
        = List.filter (λ e, Qeq_bool (LegacyAnalysis.sort_key parse e) k)
            events.
Proof.
  intros Hall.
  assert (Hdicts : forallb is_dict events = true).
  { rewrite forallb_forall in Hall |- *. intros e He.
    specialize (Hall e He). by destruct e. }
  unfold LegacyAnalysis.sort_events.
  rewrite (legacy_keys parse events [] Hdicts). cbn [bind app].
  set (keyed := (λ e, (LegacyAnalysis.sort_key parse e, e)) <$> events).
  assert (Hkeyed : keyed.*2 = events).
  { unfold keyed. rewrite <- list_fmap_compose. apply list_fmap_id. }
  assert (Hkeys : Forall (λ p, p.1 = LegacyAnalysis.sort_key parse p.2)
                    (foldr LegacyAnalysis.insert_by_key [] keyed)).
  { rewrite sort_by_key_perm. unfold keyed. apply Forall_fmap.
    by apply Forall_forall. }
  eexists. split; [done|]. split; [|split].
  - etrans; [apply fmap_Permutation, sort_by_key_perm|]. by rewrite Hkeyed.
  - apply keyed_sorted; [apply sort_by_key_sorted | done].
  - intros k. rewrite (keyed_filter _ k Hkeys), sort_by_key_stable.
    rewrite <- (keyed_filter keyed k), Hkeyed; [done|].
    unfold keyed. apply Forall_fmap. by apply Forall_forall.
Qed.

End LegacyAnalysisSort.

(** X26. In [analyze_events] of [analyzer.py] the last event wins, where
    the unified analyzer keeps the first: on events in the shape
    [parse_jsonl] builds, the events are sorted by
    [get_timestamp_for_sorting] (a stable sort: a permutation in
    ascending key order that keeps the input order of equal keys; a
    timestamp the parser rejects counts as 0), and every entry of
    [user_info] and [session_info] holds the attribute of the last sorted
    event that carries it, and is absent when no event carries it. *)
Theorem legacy_info_last_event_wins
    (parse : string → option Q) (events : list json) :
  events ≠ [] →
  forallb legacy_event events = true →
  ∃ sorted session_info user_info,
    LegacyAnalysis.collect_info parse events
    = Ok (Some (sorted, session_info, user_info))
    ∧ sorted ≡ₚ events
    ∧ StronglySorted
        (λ a b, (LegacyAnalysis.sort_key parse a
                 <= LegacyAnalysis.sort_key parse b)%Q) sorted
    ∧ (∀ k,
         List.filter (λ e, Qeq_bool (LegacyAnalysis.sort_key parse e) k)
           sorted
         = List.filter (λ e, Qeq_bool (LegacyAnalysis.sort_key parse e) k)
             events)
    ∧ (∀ src dst, (src, dst) ∈ LegacyAnalysis.user_keys →
         dict_get dst user_info = last (omap (legacy_attr src) sorted))
    ∧ (∀ src dst, (src, dst) ∈ LegacyAnalysis.session_keys →
         dict_get dst session_info = last (omap (legacy_attr src) sorted)).
Proof.
  intros Hne Hall.
  destruct (legacy_sort parse events Hall)
    as (sorted & Hsort & Hperm & Hsorted & Hstable).
  assert (Hall' : forallb legacy_event sorted = true)
    by (by rewrite (forallb_perm _ _ _ Hperm)).
  destruct (legacy_collect_fold sorted ([], []) Hall')
    as ([session_info user_info] & Hcollect & Huser & Hsession).
  exists sorted, session_info, user_info.
  unfold LegacyAnalysis.collect_info. destruct events as [|e0 events]; [done|].
  rewrite Hsort. cbn [bind]. rewrite (legacy_group_fold sorted Hall').
  cbn [bind]. rewrite Hcollect. cbn [bind fst snd].
  split; [done|]. split; [done|]. split; [done|]. split; [done|].
  cbn [fst snd] in Huser, Hsession. split.
  - intros src dst Hkey. rewrite (Huser src dst Hkey). cbn.
    by destruct (last (omap (legacy_attr src) sorted)).
  - intros src dst Hkey. rewrite (Hsession src dst Hkey). cbn.
    by destruct (last (omap (legacy_attr src) sorted)).
Qed.

Lemma legacy_info_last_event_wins_witness :
  ∃ sorted session_info user_info,
    LegacyAnalysis.collect_info (λ _, None)
      [JDict [("timestamp", JInt 2);
              ("attributes", JDict [("user.email", JStr "late@example.com")])];
       JDict [("timestamp", JInt 1);
              ("attributes", JDict [("user.email", JStr "early@example.com")])]]
    = Ok (Some (sorted, session_info, user_info))
    ∧ dict_get "email" user_info = Some (JStr "late@example.com").
Proof.
  destruct (legacy_info_last_event_wins (λ _, None)
              [JDict [("timestamp", JInt 2);
                      ("attributes",
                       JDict [("user.email", JStr "late@example.com")])];
               JDict [("timestamp", JInt 1);
                      ("attributes",
                       JDict [("user.email", JStr "early@example.com")])]])
    as (sorted & session_info & user_info & Hinfo & _ & _ & _ & Huser & _);
    [done|reflexivity|].
  exists sorted, session_info, user_info. split; [exact Hinfo|].
  rewrite (Huser "user.email" "email") by apply list_elem_of_here.
  vm_compute in Hinfo. injection Hinfo as <- _ _. reflexivity.
Defined.
